(** * literacy_score.grading_utils: alignment, error classification, normalisation

    A shallow embedding of [src/literacy_score/grading_utils.py] and the
    properties its specification states about it.

    Conventions of the embedding.
    - Python [str] is [string]; the text handled is ASCII (the case mapping,
      the digit class and the white space class are the ASCII ones).
    - A Python exception is a value [Raise e] of the error monad [result].
    - [difflib.Differ().compare], [num2words] and [ast.literal_eval] are
      library functions: they are parameters of the definitions that call
      them.
    - [os.path.exists] is a parameter of the functions that work on files;
      these are given by the calls they make to [os], [pandas] and
      [joblib].
    - A [pandas.DataFrame] is the list of its columns, each under its label;
      frames are objects, and the frames alive at some moment form a heap (a
      finite map from references to frames), so that in-place updates and
      copies are told apart. *)

From Stdlib Require Import QArith.
From Stdlib Require Import Ascii String DecimalString.
From stdpp Require Import gmap strings list fin_maps.
Close Scope Q_scope.
Open Scope string_scope.
Open Scope list_scope.
Open Scope nat_scope.

(** ** Exceptions *)

Module Py.

(** The exceptions the modelled code can raise. [OutOfFuel] is not a Python
    exception: it marks the exhausted iteration bound of a [while] loop of the
    embedding, and every loop below is shown never to reach it. *)
Inductive exn :=
  | IndexError
  | ValueError
  | TypeError
  | AttributeError
  | KeyError
  | SyntaxError
  | ZeroDivisionError
  | OutOfFuel.

Inductive result (A : Type) :=
  | Ok (a : A)
  | Raise (e : exn).
Arguments Ok {A} a.
Arguments Raise {A} e.

Definition bind {A B} (m : result A) (k : A -> result B) : result B :=
  match m with
  | Ok a => k a
  | Raise e => Raise e
  end.

End Py.
Import Py.

#[global] Instance result_ret : MRet result := fun A a => Ok a.
#[global] Instance result_bind : MBind result := fun A B k m => bind m k.

(** [for x in l: acc = f(x)] collecting the results, left to right, stopping
    at the first exception. *)
Fixpoint for_each {A B} (f : A -> result B) (l : list A) : result (list B) :=
  match l with
  | [] => Ok []
  | x :: l' =>
      y ← f x;
      ys ← for_each f l';
      Ok (y :: ys)
  end.

(** ** Python string and list primitives *)

(** [s[0]]: the first character, [IndexError] on the empty string. *)
Definition index0 (s : string) : result ascii :=
  match s with
  | EmptyString => Raise IndexError
  | String c _ => Ok c
  end.

(** [l[k]] for a non-negative index. *)
Definition getitem {A} (l : list A) (k : nat) : result A :=
  match l !! k with
  | Some x => Ok x
  | None => Raise IndexError
  end.

(** [l[-1]]. *)
Definition getitem_last {A} (l : list A) : result A :=
  match last l with
  | Some x => Ok x
  | None => Raise IndexError
  end.

(** [str.isspace] on one ASCII character: tab, line feed, vertical tab, form
    feed, carriage return, the four separators 28..31, and space. *)
Definition is_space (c : ascii) : bool :=
  let n := nat_of_ascii c in
  ((9 <=? n) && (n <=? 13)) || ((28 <=? n) && (n <=? 32)).

(** [\d] on ASCII text. *)
Definition is_digit (c : ascii) : bool :=
  let n := nat_of_ascii c in (48 <=? n) && (n <=? 57).

(** [s.split(sep)] for a non-empty separator: [skip] counts the characters of
    a separator occurrence still to be passed over, [cur] is the piece being
    read. *)
Fixpoint split_on (sep s : string) (skip : nat) (cur : string) : list string :=
  match s with
  | EmptyString => [cur]
  | String c s' =>
      match skip with
      | S k => split_on sep s' k cur
      | O =>
          if String.prefix sep s
          then cur :: split_on sep s' (String.length sep - 1) ""
          else split_on sep s' 0 (cur +:+ String c "")
      end
  end.

(** [s.split()]: split on runs of white space, no empty piece. *)
Fixpoint split_ws (s : string) (cur : string) : list string :=
  match s with
  | EmptyString => if String.eqb cur "" then [] else [cur]
  | String c s' =>
      if is_space c
      then (if String.eqb cur "" then split_ws s' "" else cur :: split_ws s' "")
      else split_ws s' (cur +:+ String c "")
  end.

(** [s.split(sep)] where [sep] is [None] or a string; the empty separator is a
    [ValueError]. *)
Definition split (s : string) (sep : option string) : result (list string) :=
  match sep with
  | None => Ok (split_ws s "")
  | Some "" => Raise ValueError
  | Some sp => Ok (split_on sp s 0 "")
  end.

(** [sep.join(l)]. *)
Definition join (sep : string) (l : list string) : string :=
  String.concat sep l.

(** [s.replace(old, new)] for a non-empty [old]: every occurrence, left to
    right, without overlap. *)
Fixpoint replace_from (old new s : string) (skip : nat) : string :=
  match s with
  | EmptyString => ""
  | String c s' =>
      match skip with
      | S k => replace_from old new s' k
      | O =>
          if String.prefix old s
          then new +:+ replace_from old new s' (String.length old - 1)
          else String c (replace_from old new s' 0)
      end
  end.

Definition replace (s old new : string) : string :=
  replace_from old new s 0.

(** [sum(len(word) for word in l)]. *)
Definition sum_len (l : list string) : nat :=
  foldr (fun word acc => String.length word + acc) 0 l.

(** ** avg_length_of_words *)

(** [a / n] on integers: the true quotient, kept exact as a rational (the
    float Python returns is its rounding); division by zero raises. *)
Definition truediv (a n : nat) : result Q :=
  match n with
  | O => Raise ZeroDivisionError
  | S _ => Ok (Qmake (Z.of_nat a) (Pos.of_nat n))
  end.

Definition avg_length_of_words (s : string) (sep : option string) : result Q :=
  s ← split s sep;
  let n := length s in
  if n =? 0 then Ok 0%Q
  else truediv (sum_len s) n.

(** ** get_errors_dict *)

(** [errors_dict = {'prompt': [], 'transcript': []}]: a dictionary with two
    fixed keys, each holding a list that only grows. *)
Record errors_dict := ErrorsDict {
  prompt : list string;
  transcript : list string
}.

(** The local variables that the [for] loop of [get_errors_dict] updates. *)
Record loop_state := LoopState {
  counter : nat;
  errors : errors_dict;
  skip_next : nat;
  add : nat;
  sub : nat
}.

Definition init_state : loop_state :=
  LoopState 0 (ErrorsDict [] []) 0 0 0.

Definition set_counter (st : loop_state) (v : nat) : loop_state :=
  LoopState v (errors st) (skip_next st) (add st) (sub st).
Definition set_errors (st : loop_state) (v : errors_dict) : loop_state :=
  LoopState (counter st) v (skip_next st) (add st) (sub st).
Definition set_skip_next (st : loop_state) (v : nat) : loop_state :=
  LoopState (counter st) (errors st) v (add st) (sub st).
Definition set_add (st : loop_state) (v : nat) : loop_state :=
  LoopState (counter st) (errors st) (skip_next st) v (sub st).
Definition set_sub (st : loop_state) (v : nat) : loop_state :=
  LoopState (counter st) (errors st) (skip_next st) (add st) v.

(** [b * j] for a boolean [b]. *)
Definition bool_mul (b : bool) (j : nat) : nat := if b then j else 0.

(** [while i+j < n and differ_list[i + j][0] == "?": j += 1], started at some
    [j]; [fuel] bounds the number of iterations. *)
Fixpoint lookahead (differ_list : list string) (n i : nat) (fuel j : nat)
  : result nat :=
  if i + j <? n then
    w ← getitem differ_list (i + j);
    c ← index0 w;
    if Ascii.eqb c "?" then
      match fuel with
      | O => Raise OutOfFuel
      | S fuel' => lookahead differ_list n i fuel' (j + 1)
      end
    else Ok j
  else Ok j.

(** [word[0] == a and differ_list[k][0] == b]: the right operand is evaluated
    only when the left one holds. *)
Definition tags_are (differ_list : list string) (c a : ascii) (k : nat) (b : ascii)
  : result bool :=
  if Ascii.eqb c a then
    w ← getitem differ_list k;
    c' ← index0 w;
    Ok (Ascii.eqb c' b)
  else Ok false.

(** One iteration of [for i, word in enumerate(differ_list)]. The statement
    [pass] under [if skip_next > 0] does not leave the iteration: the word is
    processed whatever [skip_next] is. *)
Definition loop_body (differ_list : list string) (n i : nat) (word : string)
    (st : loop_state) : result loop_state :=
  let st := if 0 <? skip_next st then set_skip_next st (skip_next st - 1) else st in
  c ← index0 word;
  if Ascii.eqb c " " then Ok (set_counter st (counter st + 1))
  else if (Z.of_nat i <? Z.of_nat n - 2)%Z then
    let st :=
      if Ascii.eqb c "+" then set_add st (add st + 1)
      else if Ascii.eqb c "-" then set_sub st (sub st + 1)
      else st in
    j ← lookahead differ_list n i n 1;
    plus_minus ← tags_are differ_list c "+" (i + j) "-";
    minus_plus ← tags_are differ_list c "-" (i + j) "+";
    let st := set_skip_next st (bool_mul (plus_minus || minus_plus) j) in
    if plus_minus then
      w ← getitem differ_list (i + j);
      Ok (set_errors st
            (ErrorsDict (prompt (errors st) ++ [replace word "+ " ""])
                        (transcript (errors st) ++ [replace w "- " ""])))
    else if minus_plus then
      w ← getitem differ_list (i + j);
      Ok (set_errors st
            (ErrorsDict (prompt (errors st) ++ [replace word "- " ""])
                        (transcript (errors st) ++ [replace w "+ " ""])))
    else Ok st
  else Ok st.

(** The [for] loop from index [i] on; [rest] is [differ_list[i:]]. *)
Fixpoint for_loop (differ_list : list string) (n i : nat) (rest : list string)
    (st : loop_state) : result loop_state :=
  match rest with
  | [] => Ok st
  | word :: rest' =>
      st' ← loop_body differ_list n i word st;
      for_loop differ_list n (S i) rest' st'
  end.

(** The returned tuple [(counter, add, sub, replaced, errors_dict)]. *)
Definition get_errors_dict (differ_list : list string)
  : result (nat * nat * nat * nat * errors_dict) :=
  let n := length differ_list in
  st ← for_loop differ_list n 0 differ_list init_state;
  let replaced := length (prompt (errors st)) in
  Ok (counter st, add st, sub st, replaced, errors st).

(** ** compare_text *)

(** The lines [difflib.Differ] yields for a token: two characters of tag,
    then the token. *)
Definition match_line (x : string) : string := "  " +:+ x.
Definition insert_line (x : string) : string := "+ " +:+ x.
Definition delete_line (x : string) : string := "- " +:+ x.

(** [while differ_list[-1][0] == to_be_removed and len(differ_list) >= 1:
    differ_list.pop()]. The left operand of [and] is evaluated first, so the
    last element is read before the length is looked at. *)
Fixpoint trim_loop (fuel : nat) (to_be_removed : ascii) (differ_list : list string)
  : result (list string) :=
  w ← getitem_last differ_list;
  c ← index0 w;
  if Ascii.eqb c to_be_removed && (1 <=? length differ_list) then
    match fuel with
    | O => Raise OutOfFuel
    | S fuel' => trim_loop fuel' to_be_removed (removelast differ_list)
    end
  else Ok differ_list.

Section Aligner.

(** [difflib.Differ().compare] on two token sequences, as a list. *)
Variable differ_compare : list string -> list string -> list string.

(** [compare_text]; the arguments are strings, on which [str] is the
    identity. *)

Definition compare_text (string_a string_b : string) (split_car : option string)
  : result (list string) :=
  a ← split string_a split_car;
  b ← split string_b split_car;
  let differ_list := differ_compare a b in
  w ← getitem_last differ_list;
  to_be_removed ← index0 w;
  if negb (Ascii.eqb to_be_removed " ") then
    trim_loop (length differ_list) to_be_removed differ_list
  else Ok differ_list.

End Aligner.

(** A plain longest-common-subsequence aligner with the line format of
    [difflib], on which the definitions above are run on concrete inputs;
    [difflib] itself stays a parameter of [compare_text]. *)
Fixpoint lcs_len (a b : list string) : nat :=
  match a with
  | [] => 0
  | x :: a' =>
      (fix inner (b : list string) : nat :=
         match b with
         | [] => 0
         | y :: b' =>
             if String.eqb x y then S (lcs_len a' b')
             else Nat.max (lcs_len a' b) (inner b')
         end) b
  end.

Fixpoint lcs_differ (a b : list string) : list string :=
  match a with
  | [] => map insert_line b
  | x :: a' =>
      (fix inner (b : list string) : list string :=
         match b with
         | [] => map delete_line a
         | y :: b' =>
             if String.eqb x y then match_line x :: lcs_differ a' b'
             else if lcs_len a' b <? lcs_len a b'
                  then insert_line y :: inner b'
                  else delete_line x :: lcs_differ a' b
         end) b
  end.

(** ** Data frames and the frames alive *)

(** A cell of a text column: a string, or the missing value [nan]. *)
Inductive cell :=
  | CStr (s : string)
  | CNaN.

(** A data frame: its columns in order, each under its label; rows are the
    positions in the columns. Labels are taken to be distinct in a stored
    frame; a selection may repeat one. *)
Definition column := list cell.
Definition frame := list (string * column).

(** [df[c]]. *)
Fixpoint get_column (f : frame) (c : string) : result column :=
  match f with
  | [] => Raise KeyError
  | (c', col) :: f' => if String.eqb c' c then Ok col else get_column f' c
  end.

(** [df[c] = col]: the column is replaced where it stands, or appended. *)
Fixpoint set_column (f : frame) (c : string) (col : column) : frame :=
  match f with
  | [] => [(c, col)]
  | (c', col') :: f' =>
      if String.eqb c' c then (c, col) :: f' else (c', col') :: set_column f' c col
  end.

(** [df[columns]] for a list of labels: a new frame with these columns, in the
    order asked for. *)
Definition select (f : frame) (columns : list string) : result frame :=
  for_each (fun c => col ← get_column f c; Ok (c, col)) columns.

(** [df[columns] = value] for a frame [value]: the columns of [value] are
    assigned by position to the labels of [columns]. *)
Fixpoint setitem_columns (f : frame) (columns : list string) (value : frame) : frame :=
  match columns, value with
  | c :: columns', (_, col) :: value' => setitem_columns (set_column f c col) columns' value'
  | _, _ => f
  end.

(** [df.applymap(g)]: a new frame, [g] applied to every cell, column by
    column. *)
Definition applymap {A B} (g : A -> result B) (f : list (string * list A))
  : result (list (string * list B)) :=
  for_each (fun '(c, col) => col' ← for_each g col; Ok (c, col')) f.

(** [df.fillna(v)]. *)
Definition fillna (v : string) (f : frame) : frame :=
  map (fun '(c, col) =>
         (c, map (fun x => match x with CNaN => CStr v | _ => x end) col)) f.

(** Frames are objects: a variable holds a reference, and the frames alive are
    a finite map from references to frames. *)
Definition loc := positive.
Abbreviation heap := (gmap loc frame).

(** Computations that read and update the frames alive and may raise. *)
Definition heapM (A : Type) : Type := heap -> result A * heap.

#[global] Instance heapM_ret : MRet heapM := fun A a h => (Ok a, h).
#[global] Instance heapM_bind : MBind heapM := fun A B k m h =>
  match m h with
  | (Ok a, h') => k a h'
  | (Raise e, h') => (Raise e, h')
  end.

Definition lift {A} (r : result A) : heapM A := fun h => (r, h).

(** A new frame object. *)
Definition new_frame (f : frame) : heapM loc := fun h =>
  let l := fresh (dom h) in (Ok l, <[l := f]> h).

(** The frame a reference designates (a reference always designates a live
    frame; on a heap where it does not, the empty frame is read). *)
Definition read_frame (l : loc) : heapM frame := fun h => (Ok (h !!! l), h).

(** In-place update of the frame a reference designates. *)
Definition write_frame (l : loc) (f : frame) : heapM unit := fun h =>
  (Ok tt, <[l := f]> h).

(** ** The normalisation steps of preprocess_data *)

(** The values [ast.literal_eval] can return that the recomposition step
    tells apart: strings, numbers, [None], lists, and dictionaries (the
    bindings of a dictionary display in the order written, the last binding
    of a key being the one kept). *)
#[warning="-register-all"]
Inductive pyval :=
  | PStr (s : string)
  | PInt (z : Z)
  | PNone
  | PList (l : list pyval)
  | PDict (d : list (pyval * pyval)).

(** [for e in x]: the elements of a list, the keys of a dictionary, the
    characters of a string. *)
Definition iterate (x : pyval) : result (list pyval) :=
  match x with
  | PList l => Ok l
  | PDict d => Ok (map fst d)
  | PStr s => Ok (map (fun c => PStr (String c "")) (list_ascii_of_string s))
  | PInt _ | PNone => Raise TypeError
  end.

Definition is_key (k : string) (v : pyval) : bool :=
  match v with
  | PStr s => String.eqb s k
  | _ => false
  end.

(** [e[k]] for a string key [k]. *)
Definition subscript (e : pyval) (k : string) : result pyval :=
  match e with
  | PDict d =>
      match last (filter (fun kv => is_key k (fst kv) = true) d) with
      | Some kv => Ok (snd kv)
      | None => Raise KeyError
      end
  | _ => Raise TypeError
  end.

(** [sep.join(l)] on values: every item has to be a string. *)
Definition join_values (sep : string) (l : list pyval) : result string :=
  l' ← for_each (fun v => match v with PStr s => Ok s | _ => Raise TypeError end) l;
  Ok (join sep l').

(** [str(x)] on a cell. *)
Definition str (x : cell) : string :=
  match x with
  | CStr s => s
  | CNaN => "nan"
  end.

(** [s.lower()] on ASCII text. *)
Definition lower_char (c : ascii) : ascii :=
  let n := nat_of_ascii c in
  if (65 <=? n) && (n <=? 90) then ascii_of_nat (n + 32) else c.

Fixpoint lower (s : string) : string :=
  match s with
  | EmptyString => ""
  | String c s' => String (lower_char c) (lower s')
  end.

(** [re.sub('\d+', f, s)]: every maximal run of digits is replaced by what [f]
    returns for it, left to right; [run] is the run being read. *)
Fixpoint re_sub_digits (f : string -> result string) (s : string) (run : string)
  : result string :=
  match s with
  | EmptyString => if String.eqb run "" then Ok "" else f run
  | String c s' =>
      if is_digit c then re_sub_digits f s' (run +:+ String c "")
      else
        r ← (if String.eqb run "" then Ok "" else f run);
        rest ← re_sub_digits f s' "";
        Ok (r +:+ String c rest)
  end.

(** [string.punctuation]. *)
Definition punctuation : string :=
  "!" +:+ String (ascii_of_nat 34) "#$%&'()*+,-./:;<=>?@[\]^_`{|}~".

(** [c * n] for a one-character string. *)
Fixpoint repeat_char (c : ascii) (n : nat) : string :=
  match n with
  | O => ""
  | S n' => String c (repeat_char c n')
  end.

(** [str.maketrans(x, y)]: the character of [x] at a position is sent to the
    one of [y] there. *)
Fixpoint maketrans (x y : string) : list (ascii * ascii) :=
  match x, y with
  | String a x', String b y' => (a, b) :: maketrans x' y'
  | _, _ => []
  end.

Fixpoint translate_char (t : list (ascii * ascii)) (c : ascii) : ascii :=
  match t with
  | [] => c
  | (a, b) :: t' => if Ascii.eqb a c then b else translate_char t' c
  end.

(** [s.translate(t)]. *)
Fixpoint translate (t : list (ascii * ascii)) (s : string) : string :=
  match s with
  | EmptyString => ""
  | String c s' => String (translate_char t c) (translate t s')
  end.

(** The nested function [remove_punctuation(s, translater)]; the missing value
    has no [translate]. *)
Definition remove_punctuation (s : cell) (translater : list (ascii * ascii))
  : result cell :=
  match s with
  | CNaN => Raise AttributeError
  | CStr s =>
      let s := translate translater s in
      Ok (CStr (join " " (split_ws s "")))
  end.

(** The two ways [num2words] is asked to read a number. *)
Inductive reading := Cardinal | Year.

(** ** Dataset *)

(** The attributes of a [Dataset] object; the frames are held by
    reference. *)
Record Dataset := {
  data_raw : loc;
  data : loc;
  prompt_col : string;
  asr_col : string;
  duration_col : string;
  human_wcpm_col : string
}.

(** [Dataset.__init__]: [self.data] is a copy of the frame given. *)
Definition Dataset_init (df : loc)
    (prompt_col asr_col duration_col human_wcpm_col : string) : heapM Dataset :=
  f ← read_frame df;
  copy ← new_frame f;
  mret {| data_raw := df; data := copy; prompt_col := prompt_col;
          asr_col := asr_col; duration_col := duration_col;
          human_wcpm_col := human_wcpm_col |}.

Section Normaliser.

(** [num2words(digits)] and [num2words(digits, to='year')]. *)
Variable num2words : string -> reading -> result string.
(** [ast.literal_eval]. *)
Variable literal_eval : cell -> result pyval.

(** [lambda x: " ".join([e['text'] for e in x])]. *)
Definition join_texts (x : pyval) : result cell :=
  es ← iterate x;
  texts ← for_each (fun e => subscript e "text") es;
  s ← join_values " " texts;
  Ok (CStr s).

(** [lambda x: str(x).lower()]. *)
Definition lower_cell (x : cell) : result cell := Ok (CStr (lower (str x))).

(** The nested function [converter(s)]; [len] is not defined on the missing
    value. The length tested is the one of the whole cell. *)
Definition converter (s : cell) : result cell :=
  match s with
  | CNaN => Raise TypeError
  | CStr s =>
      if String.length s =? 4 then
        r ← re_sub_digits (fun y => num2words y Year) s "";
        Ok (CStr r)
      else
        r ← re_sub_digits (fun y => num2words y Cardinal) s "";
        Ok (CStr r)
  end.

(** [df = df.applymap(g)]: the new frame is a new object, and [df] now
    designates it. *)
Definition rebind_applymap (g : cell -> result cell) (df : loc) : heapM loc :=
  f ← read_frame df;
  f' ← lift (applymap g f);
  new_frame f'.

(** [Dataset.preprocess_data]. It returns [Some df] for [return df] and
    [None] when the method ends without a [return]. The frame of parsed
    values between the two [applymap] calls of the recomposition is dropped
    at once and gets no reference. In the punctuation step the result of
    [applymap] is not assigned. *)
Definition preprocess_data (self : Dataset)
    (lowercase punctuation_free convert_num2words asr_string_recomposition
     inplace : bool) : heapM (option loc) :=
  let columns := [prompt_col self; asr_col self] in
  d ← read_frame (data self);
  sel ← lift (select d columns);
  sel ← new_frame sel;
  f ← read_frame sel;
  df ← new_frame f;
  df ← (if asr_string_recomposition then
          f ← read_frame df;
          parsed ← lift (applymap literal_eval f);
          f' ← lift (applymap join_texts parsed);
          new_frame f'
        else mret df);
  df ← (if lowercase then rebind_applymap lower_cell df else mret df);
  df ← (if convert_num2words then rebind_applymap converter df else mret df);
  _ ← (if punctuation_free then
         let t := maketrans punctuation
                    (repeat_char " " (String.length punctuation)) in
         rebind_applymap (fun x => remove_punctuation x t) df
       else mret df);
  f ← read_frame df;
  _ ← write_frame df (fillna " " f);
  if negb inplace then mret (Some df)
  else
    d ← read_frame (data self);
    f ← read_frame df;
    _ ← write_frame (data self) (setitem_columns d columns f);
    mret None.

End Normaliser.

(** ** Vocabulary of the statements *)

(** The tag of an operation is its first character: [" "] Match, ["+"]
    Insert, ["-"] Delete, ["?"] Annotation. *)
Definition has_tag (c : ascii) (w : string) : bool :=
  match w with
  | EmptyString => false
  | String c' _ => Ascii.eqb c' c
  end.

Fixpoint count_tag (c : ascii) (l : list string) : nat :=
  match l with
  | [] => 0
  | w :: l' => (if has_tag c w then 1 else 0) + count_tag c l'
  end.

(** A line as [difflib.Differ] writes them: one of the four tags first. *)
Definition differ_line (w : string) : bool :=
  has_tag " " w || has_tag "+" w || has_tag "-" w || has_tag "?" w.

(** The operations that are not Annotations. *)
Definition non_annotation_count (l : list string) : nat :=
  length l - count_tag "?" l.

(** The Insert and Delete operations in the last two positions, which the
    guard [i < n - 2] keeps out of the classification. *)
Definition unclassified_tail (l : list string) : nat :=
  count_tag "+" (drop (length l - 2) l) + count_tag "-" (drop (length l - 2) l).

(** The list ends with two Annotation lines in a row ([difflib] writes an
    Annotation only right after an Insert or a Delete line). *)
Definition ends_in_two_annotations (l : list string) : bool :=
  match reverse l with
  | w2 :: w1 :: _ => has_tag "?" w1 && has_tag "?" w2
  | _ => false
  end.

(** The invariant of the classifier as the specification words it. *)
Definition classification_invariant (differ_list : list string) : Prop :=
  forall c a s r e,
    get_errors_dict differ_list = Ok (c, a, s, r, e) ->
    a + s + 2 * r + c = non_annotation_count differ_list.


(** The frame [preprocess_data] builds out of the selected columns, as a
    function: every enabled step maps its function over the cells, the
    punctuation step only runs (its frame is dropped), and the missing values
    are filled last. *)
Definition step (enabled : bool) (g : cell -> result cell) (f : frame)
  : result frame :=
  if enabled then applymap g f else Ok f.

Definition processed_columns
    (num2words : string -> reading -> result string)
    (literal_eval : cell -> result pyval)
    (lowercase punctuation_free convert_num2words asr_string_recomposition : bool)
    (sel : frame) : result frame :=
  f ← (if asr_string_recomposition then
         parsed ← applymap literal_eval sel;
         applymap join_texts parsed
       else Ok sel);
  f ← step lowercase lower_cell f;
  f ← step convert_num2words (converter num2words) f;
  _ ← step punctuation_free
        (fun x => remove_punctuation x
                    (maketrans punctuation
                       (repeat_char " " (String.length punctuation)))) f;
  Ok (fillna " " f).

(** Every frame alive in [h0] is alive and the same in [h]. *)
Definition grows (h0 h : heap) : Prop :=
  forall l, l ∈ dom h0 -> h !! l = h0 !! l.

(** [df] designates the frame [f] in [h], and is an object made after
    [h0]. *)
Definition owns (h0 h : heap) (df : loc) (f : frame) : Prop :=
  grows h0 h /\ (df ∉ dom h0) /\ h !! df = Some f.

(** What holds of the outcome of a computation started in [h]. *)
Definition post {A} (m : heapM A) (h : heap)
    (Qok : A -> heap -> Prop) (Qerr : exn -> heap -> Prop) : Prop :=
  match m h with
  | (Ok a, h') => Qok a h'
  | (Raise e, h') => Qerr e h'
  end.

(** A data set of one row, held as [Dataset_init] leaves it: [self.data] is a
    copy of [self.data_raw]. *)
Definition one_row (prompt_text transcript_text : string) : frame :=
  [("prompt", [CStr prompt_text]);
   ("asr_transcript", [CStr transcript_text]);
   ("scored_duration", [CStr "60"])].

Definition one_row_heap (prompt_text transcript_text : string) : heap :=
  <[2%positive := one_row prompt_text transcript_text]>
    {[1%positive := one_row prompt_text transcript_text]}.

Definition one_row_self : Dataset :=
  {| data_raw := 1%positive; data := 2%positive;
     prompt_col := "prompt"; asr_col := "asr_transcript";
     duration_col := "scored_duration"; human_wcpm_col := "human_wcpm" |}.

(** A stand-in for [num2words] that writes down which reading was asked
    for. *)
Definition tagged_reading (digits : string) (to : reading) : result string :=
  Ok ((match to with Cardinal => "cardinal" | Year => "year" end) +:+ digits).

(** A stand-in for [ast.literal_eval] that parses nothing. *)
Definition no_literal (x : cell) : result pyval := Raise SyntaxError.

(** The part of the loop state that reaches the returned tuple. *)
Definition counts (st : loop_state) : nat * nat * nat * errors_dict :=
  (counter st, add st, sub st, errors st).

(** A token without a blank, as [split] on [" "] makes them. *)
Fixpoint no_blank (s : string) : bool :=
  match s with
  | EmptyString => true
  | String c s' => negb (Ascii.eqb c " ") && no_blank s'
  end.

(** What [fillna] does to one cell. *)
Definition fill_cell (v : string) (x : cell) : cell :=
  match x with
  | CNaN => CStr v
  | _ => x
  end.

(** The steps of [preprocess_data] on one cell, in their order: the enabled
    ones are applied to the cell, the punctuation step only runs, and the
    missing value is filled last. *)
Definition normalise_cell
    (num2words : string -> reading -> result string)
    (literal_eval : cell -> result pyval)
    (lowercase punctuation_free convert_num2words asr_string_recomposition : bool)
    (x : cell) : result cell :=
  x ← (if asr_string_recomposition then
         parsed ← literal_eval x; join_texts parsed
       else Ok x);
  x ← (if lowercase then lower_cell x else Ok x);
  x ← (if convert_num2words then converter num2words x else Ok x);
  _ ← (if punctuation_free then
         remove_punctuation x
           (maketrans punctuation (repeat_char " " (String.length punctuation)))
       else Ok x);
  Ok (fill_cell " " x).

(** Every character of a string passes a test. *)
Fixpoint string_forall (P : ascii -> bool) (s : string) : bool :=
  match s with
  | EmptyString => true
  | String c s' => P c && string_forall P s'
  end.

(** The character is one of [string.punctuation]. *)
Definition is_punctuation (c : ascii) : bool :=
  existsb (Ascii.eqb c) (list_ascii_of_string punctuation).

(** A word as the punctuation step leaves them: not empty, without white
    space and without punctuation. *)
Definition clean_word (w : string) : bool :=
  negb (String.eqb w "")
  && string_forall (fun c => negb (is_space c) && negb (is_punctuation c)) w.

(** The string starts with a digit. *)
Definition starts_with_digit (s : string) : bool :=
  match s with
  | EmptyString => false
  | String c _ => is_digit c
  end.

(** ** compute_differ_list, compute_features *)

(** A row of the frame [compute_features] builds, under the names of its
    columns. The frame is kept row by row; the rows are the positions of the
    rows of [self.data] (its index is the default one). *)
Record features_row := FeaturesRow {
  correct_words : nat;
  added_words : nat;
  removed_words : nat;
  replaced_words : nat;
  asr_word_count : nat;
  prompt_avg_word_length : Q;
  asr_avg_word_length : Q
}.

(** A method of [str] called on a cell: the missing value, a float, has no
    such method. *)
Definition cell_text (x : cell) : result string :=
  match x with
  | CStr s => Ok s
  | CNaN => Raise AttributeError
  end.

(** [lambda x: len(x.split())]. *)
Definition cell_word_count (x : cell) : result nat :=
  s ← cell_text x;
  Ok (length (split_ws s "")).

(** [lambda x: avg_length_of_words(x)], with the default separator. *)
Definition cell_avg_length (x : cell) : result Q :=
  s ← cell_text x;
  avg_length_of_words s (Some " ").

(** The frame of the tuples of [get_errors_dict] without its column
    [errors_dict], with the three columns assigned to it. *)
Fixpoint make_rows (temp : list (nat * nat * nat * nat * errors_dict))
    (word_counts : list nat) (prompt_avg asr_avg : list Q) : list features_row :=
  match temp, word_counts, prompt_avg, asr_avg with
  | (c, a, s, r, _) :: temp', n :: word_counts', pa :: prompt_avg', aa :: asr_avg' =>
      FeaturesRow c a s r n pa aa
      :: make_rows temp' word_counts' prompt_avg' asr_avg'
  | _, _, _, _ => []
  end.

Section Features.

(** [difflib.Differ().compare], as for [compare_text]. *)
Variable differ_compare : list string -> list string -> list string.

(** [Dataset.compute_differ_list] with [inplace=False], the way
    [compute_features] calls it: [compare_text] on the two cells of every
    row, with its default separator. The column labels are strings, so the
    [TypeError] of the type test cannot arise. A frame has one row or more
    (on a frame without rows [DataFrame.apply] takes another path). *)
Definition compute_differ_list (self : Dataset) (col_1 col_2 : string)
  : heapM (list (list string)) :=
  d ← read_frame (data self);
  lift (c1 ← get_column d col_1;
        c2 ← get_column d col_2;
        for_each (fun '(x1, x2) =>
                    compare_text differ_compare (str x1) (str x2) (Some " "))
          (zip c1 c2)).

(** [Dataset.compute_features]. The first component of the result is the
    frame assigned to [self.features], the second one the value returned:
    that frame, or [None] with [inplace=True]. *)
Definition compute_features (self : Dataset) (inplace : bool)
  : heapM (list features_row * option (list features_row)) :=
  diff_list ← compute_differ_list self (prompt_col self) (asr_col self);
  d ← read_frame (data self);
  lift (temp ← for_each get_errors_dict diff_list;
        asr_cells ← get_column d (asr_col self);
        word_counts ← for_each cell_word_count asr_cells;
        prompt_cells ← get_column d (prompt_col self);
        prompt_avg ← for_each cell_avg_length prompt_cells;
        asr_cells ← get_column d (asr_col self);
        asr_avg ← for_each cell_avg_length asr_cells;
        let features := make_rows temp word_counts prompt_avg asr_avg in
        Ok (features, if inplace then None else Some features)).

(** The features of one row, from its two cells. *)
Definition row_features (row : cell * cell) : result features_row :=
  let '(xp, xa) := row in
  differ_list ← compare_text differ_compare (str xp) (str xa) (Some " ");
  '(c, a, s, r, _) ← get_errors_dict differ_list;
  n ← cell_word_count xa;
  pa ← cell_avg_length xp;
  aa ← cell_avg_length xa;
  Ok (FeaturesRow c a s r n pa aa).

End Features.


(** A frame with one row or more. *)
Definition has_rows (f : frame) : bool :=
  match f with
  | [] => false
  | _ => forallb (fun '(_, col) => 0 <? length col) f
  end.

(** ** open_file, save_file *)

(** The outcome of a function that works on files: the exceptions of [exn],
    and [FileNotFoundError]. *)
Inductive file_result (A : Type) :=
  | Done (a : A)
  | PyRaise (e : exn)
  | FileNotFound.
Arguments Done {A} a.
Arguments PyRaise {A} e.
Arguments FileNotFound {A}.

(** The calls made to [os], [pandas] and [joblib] that act on files, with the
    file name and the separator passed. *)
Inductive file_call :=
  | OsRemove (name : string)
  | ToCsv (target sep : string)
  | JoblibDump (target : string)
  | ReadCsv (file_path sep : string)
  | JoblibLoad (file_path : string).

(** [s[-1]] on a string. *)
Fixpoint last_char (s : string) : result ascii :=
  match s with
  | EmptyString => Raise IndexError
  | String c EmptyString => Ok c
  | String _ s' => last_char s'
  end.

(** ['{:d}'.format(i)]. *)
Definition format_d (i : nat) : string :=
  NilEmpty.string_of_uint (Nat.to_uint i).

(** [s.rsplit(c, 1)] for a separator of one character: the text before and
    after the last [c], or [None] for the list of one element when [s] has
    no [c]. *)
Fixpoint rsplit1 (c : ascii) (s : string) : option (string * string) :=
  match s with
  | EmptyString => None
  | String a s' =>
      match rsplit1 c s' with
      | Some (before, after) => Some (String a before, after)
      | None => if Ascii.eqb a c then Some ("", s') else None
      end
  end.

Section Files.

(** [os.path.exists] at the time of the call. *)
Variable path_exists : string -> bool.

(** [open_file]: the call that loads the file. The default of [sep] is
    [";"]. *)
Definition open_file (file_path sep : string) : file_result file_call :=
  match rsplit1 "." file_path with
  | None => PyRaise ValueError
  | Some (_, extension) =>
      if negb (path_exists file_path) then FileNotFound
      else if String.eqb extension "csv" then Done (ReadCsv file_path sep)
      else Done (JoblibLoad file_path)
  end.

(** [while os.path.exists(name(i)): i += 1]. *)
Fixpoint first_free (name : nat -> string) (fuel i : nat) : result nat :=
  match fuel with
  | O => Raise OutOfFuel
  | S fuel' =>
      if path_exists (name i) then first_free name fuel' (S i) else Ok i
  end.

(** [save_file]: the calls it makes, in order. The [OSError] of [os.remove]
    is caught. *)
Definition save_file (fuel : nat) (path file_name : string) (replace : bool)
  : file_result (list file_call) :=
  match last_char path with
  | Raise e => PyRaise e
  | Ok c =>
      let path := if negb (Ascii.eqb c "/") then path +:+ "/" else path in
      if negb (path_exists path) then FileNotFound
      else
        match split_on "." file_name 0 "" with
        | [file_name; extension] =>
            let write file_name :=
              let target := path +:+ join "." [file_name; extension] in
              if String.eqb extension "csv" then ToCsv target ";"
              else JoblibDump target in
            if replace then Done [OsRemove file_name; write file_name]
            else
              match first_free
                      (fun i => path +:+ join "." [file_name +:+ "_" +:+ format_d i;
                                                   extension])
                      fuel 0 with
              | Ok i => Done [write (file_name +:+ "_" +:+ format_d i)]
              | Raise e => PyRaise e
              end
        | _ => PyRaise ValueError
        end
  end.

End Files.

(** The number of occurrences of a character. *)
Fixpoint count_char (c : ascii) (s : string) : nat :=
  match s with
  | EmptyString => 0
  | String a s' => (if Ascii.eqb a c then 1 else 0) + count_char c s'
  end.

(** The directory name [save_file] works with: [path], with ["/"] appended
    when it does not end with it. *)
Definition directory (path : string) : string :=
  match last_char path with
  | Ok c => if Ascii.eqb c "/" then path else path +:+ "/"
  | Raise _ => path +:+ "/"
  end.

(** The call that writes, chosen on the extension. *)
Definition write_call (target extension : string) : file_call :=
  if String.eqb extension "csv" then ToCsv target ";" else JoblibDump target.

(** * Properties *)

(** ** avg_length_of_words *)

Lemma truediv_no_zero_division a n :
  n <> 0 -> truediv a n <> Raise ZeroDivisionError.
Proof. destruct n; [congruence | discriminate]. Qed.

(** C9. [avg_length_of_words] raises no division by zero on any string and
    any separator, and on the empty string it returns 0 (under the default
    separator, under any other string separator, and under [None]; the empty
    separator is the [ValueError] of [str.split]). *)
Theorem avg_length_of_words_no_zero_division :
  (forall s sep, avg_length_of_words s sep <> Raise ZeroDivisionError) /\
  avg_length_of_words "" (Some " ") = Ok 0%Q /\
  (forall sep,
     avg_length_of_words "" sep = Ok 0%Q \/
     (sep = Some "" /\ avg_length_of_words "" sep = Raise ValueError)).
Proof.
  split; [| split].
  - intros s sep. unfold avg_length_of_words.
    destruct (split s sep) as [l | e] eqn:Hsplit; simpl.
    + destruct (length l =? 0) eqn:Hn; [discriminate |].
      apply truediv_no_zero_division. by apply Nat.eqb_neq.
    + intros [= ->]. destruct sep as [[| c sp] |]; discriminate.
  - reflexivity.
  - intros [[| c sp] |]; [right | left | left]; by try split.
Qed.

(** ** get_errors_dict *)

Lemma index0_has_tag w c : index0 w = Ok c -> forall a, has_tag a w = Ascii.eqb c a.
Proof. destruct w; [discriminate |]. by intros [= ->]. Qed.

Lemma differ_line_index0 w : differ_line w = true -> exists c, index0 w = Ok c.
Proof. destruct w; [discriminate |]. by eexists. Qed.

Lemma getitem_lookup {A} (l : list A) k x : l !! k = Some x -> getitem l k = Ok x.
Proof. unfold getitem. by intros ->. Qed.

(** The look-ahead loop returns: it stops on an operation that is not an
    Annotation, or past the end of the list when only Annotations were left.
    A bound of [n - (i + j)] iterations is never exhausted. *)
Lemma lookahead_returns (dl : list string) i :
  Forall (fun w => differ_line w = true) dl ->
  forall fuel j,
    length dl <= i + j + fuel ->
    exists j',
      lookahead dl (length dl) i fuel j = Ok j' /\
      (i + j' < length dl \/
       (forall k w, i + j <= k -> dl !! k = Some w -> has_tag "?" w = true)).
Proof.
  intros Hdl fuel. induction fuel as [| fuel IH]; intros j Hfuel.
  - exists j. simpl. destruct (i + j <? length dl) eqn:Hlt.
    + apply Nat.ltb_lt in Hlt. lia.
    + split; [done |]. right. intros k w Hk Hw.
      apply lookup_lt_Some in Hw. apply Nat.ltb_ge in Hlt. lia.
  - simpl. destruct (i + j <? length dl) eqn:Hlt.
    + apply Nat.ltb_lt in Hlt.
      destruct (lookup_lt_is_Some_2 dl (i + j) Hlt) as [w Hw].
      rewrite (getitem_lookup _ _ _ Hw). simpl.
      assert (Hline : differ_line w = true).
      { exact (Forall_lookup_1 _ _ _ _ Hdl Hw). }
      destruct (differ_line_index0 _ Hline) as [c Hc]. rewrite Hc. simpl.
      destruct (Ascii.eqb c "?") eqn:Hq.
      * destruct (IH (j + 1)) as [j' [Hj' Hdisj]]; [lia |].
        exists j'. split; [done |].
        destruct Hdisj as [Hin | Hall]; [by left | right].
        intros k w' Hk Hw'.
        destruct (decide (k = i + j)) as [-> | Hne].
        -- rewrite Hw in Hw'. injection Hw' as <-.
           by rewrite (index0_has_tag _ _ Hc).
        -- apply (Hall k); [lia | done].
      * exists j. split; [done |]. by left.
    + exists j. split; [done |]. right. intros k w Hk Hw.
      apply lookup_lt_Some in Hw. apply Nat.ltb_ge in Hlt. lia.
Qed.

Lemma two_annotations_at_end (dl : list string) i :
  ends_in_two_annotations dl = false ->
  i + 2 < length dl ->
  (forall k w, i + 1 <= k -> dl !! k = Some w -> has_tag "?" w = true) ->
  False.
Proof.
  unfold ends_in_two_annotations. intros Hend Hi Hall.
  assert (Hlen : length (reverse dl) = length dl) by apply length_reverse.
  destruct (reverse dl) as [| w2 [| w1 r]] eqn:Hrev; simpl in Hlen; try lia.
  assert (H2 : dl !! (length dl - 1) = Some w2).
  { assert (H0 : 0 < length dl) by lia.
    rewrite <- (reverse_lookup dl 0 H0). by rewrite Hrev. }
  assert (H1 : dl !! (length dl - 2) = Some w1).
  { assert (H1' : 1 < length dl) by lia.
    rewrite <- (reverse_lookup dl 1 H1'). by rewrite Hrev. }
  rewrite (Hall (length dl - 2) w1), (Hall (length dl - 1) w2) in Hend
    by (done || lia).
  discriminate.
Qed.

Lemma guard_ltb i n : (Z.of_nat i <? Z.of_nat n - 2)%Z = (i + 2 <? n).
Proof.
  destruct (i + 2 <? n) eqn:H.
  - apply Nat.ltb_lt in H. apply Z.ltb_lt. lia.
  - apply Nat.ltb_ge in H. apply Z.ltb_ge. lia.
Qed.

(** One iteration returns and moves the three counters by the tag of the word
    alone: whether the word is, or was, paired plays no part. *)
Lemma loop_body_counters (dl : list string) i word st :
  Forall (fun w => differ_line w = true) dl ->
  ends_in_two_annotations dl = false ->
  differ_line word = true ->
  exists st',
    loop_body dl (length dl) i word st = Ok st' /\
    counter st' = counter st + (if has_tag " " word then 1 else 0) /\
    add st' = add st + (if has_tag "+" word && (i + 2 <? length dl) then 1 else 0) /\
    sub st' = sub st + (if has_tag "-" word && (i + 2 <? length dl) then 1 else 0).
Proof.
  intros Hdl Hend Hword. unfold loop_body.
  destruct (differ_line_index0 _ Hword) as [c Hc]. rewrite Hc. simpl.
  rewrite !(index0_has_tag _ _ Hc), guard_ltb.
  set (st0 := if 0 <? skip_next st then set_skip_next st (skip_next st - 1) else st).
  assert (Hst0 : counter st0 = counter st /\ add st0 = add st /\ sub st0 = sub st).
  { subst st0. by destruct (0 <? skip_next st). }
  destruct Hst0 as (Hc0 & Ha0 & Hs0).
  destruct (Ascii.eqb c " ") eqn:Hsp.
  { apply Ascii.eqb_eq in Hsp. subst c. eexists. split; [done |]. simpl.
    rewrite Hc0, Ha0, Hs0. lia. }
  destruct (i + 2 <? length dl) eqn:Hguard.
  2:{ exists st0. rewrite !andb_false_r. split; [done |]. lia. }
  apply Nat.ltb_lt in Hguard.
  destruct (lookahead_returns dl i Hdl (length dl) 1) as [j [Hj Hdisj]]; [lia |].
  rewrite Hj. simpl.
  assert (Hin : i + j < length dl).
  { destruct Hdisj as [? | Hall]; [done |].
    exfalso. by apply (two_annotations_at_end dl i). }
  destruct (lookup_lt_is_Some_2 dl (i + j) Hin) as [w Hw].
  destruct (differ_line_index0 w (Forall_lookup_1 _ _ _ _ Hdl Hw)) as [c' Hc'].
  unfold tags_are. rewrite (getitem_lookup _ _ _ Hw). simpl. rewrite Hc'. simpl.
  rewrite !andb_true_r.
  destruct (Ascii.eqb c "+") eqn:Hplus; simpl.
  - apply Ascii.eqb_eq in Hplus. subst c. simpl.
    destruct (Ascii.eqb c' "-"); simpl; eexists; (split; [done |]); simpl; lia.
  - destruct (Ascii.eqb c "-") eqn:Hminus; simpl.
    + destruct (Ascii.eqb c' "+"); simpl; eexists; (split; [done |]); simpl; lia.
    + eexists. split; [done |]. simpl. lia.
Qed.

Lemma for_loop_counters (dl : list string) :
  Forall (fun w => differ_line w = true) dl ->
  ends_in_two_annotations dl = false ->
  forall rest i st,
    Forall (fun w => differ_line w = true) rest ->
    exists st',
      for_loop dl (length dl) i rest st = Ok st' /\
      counter st' = counter st + count_tag " " rest /\
      add st' = add st + count_tag "+" (take (length dl - 2 - i) rest) /\
      sub st' = sub st + count_tag "-" (take (length dl - 2 - i) rest).
Proof.
  intros Hdl Hend rest. induction rest as [| word rest IH]; intros i st Hrest.
  - exists st. rewrite take_nil. simpl. repeat split; lia.
  - apply Forall_cons in Hrest as [Hword Hrest].
    destruct (loop_body_counters dl i word st Hdl Hend Hword)
      as (st1 & Hbody & Hc1 & Ha1 & Hs1).
    destruct (IH (S i) st1 Hrest) as (st' & Hloop & Hc & Ha & Hs).
    exists st'. simpl. rewrite Hbody. simpl. split; [done |].
    rewrite Hc, Ha, Hs, Hc1, Ha1, Hs1.
    destruct (i + 2 <? length dl) eqn:Hguard.
    + apply Nat.ltb_lt in Hguard.
      replace (length dl - 2 - i) with (S (length dl - 2 - S i)) by lia.
      simpl. rewrite !andb_true_r. repeat split; lia.
    + apply Nat.ltb_ge in Hguard.
      replace (length dl - 2 - i) with 0 by lia.
      replace (length dl - 2 - S i) with 0 by lia.
      rewrite !andb_false_r, !take_0. simpl. repeat split; lia.
Qed.

(** What the three counters of the classifier are, on every list of [difflib]
    lines that does not end with two Annotations: the function returns, the
    first counter is the number of Match operations, the second and the third
    are the numbers of Insert and of Delete operations before the last two
    positions. *)
Lemma get_errors_dict_counters (l : list string) :
  Forall (fun w => differ_line w = true) l ->
  ends_in_two_annotations l = false ->
  exists c a s r e,
    get_errors_dict l = Ok (c, a, s, r, e) /\
    c = count_tag " " l /\
    a = count_tag "+" (take (length l - 2) l) /\
    s = count_tag "-" (take (length l - 2) l) /\
    r = length (prompt e).
Proof.
  intros Hl Hend.
  destruct (for_loop_counters l Hl Hend l 0 init_state Hl)
    as (st & Hloop & Hc & Ha & Hs).
  exists (counter st), (add st), (sub st), (length (prompt (errors st))), (errors st).
  unfold get_errors_dict. rewrite Hloop. simpl.
  rewrite Hc, Ha, Hs, Nat.sub_0_r. by simpl.
Qed.

Lemma count_tag_app c (l1 l2 : list string) :
  count_tag c (l1 ++ l2) = count_tag c l1 + count_tag c l2.
Proof. induction l1 as [| w l1 IH]; simpl; [done | rewrite IH; lia]. Qed.

Lemma count_tag_take_drop c k (l : list string) :
  count_tag c l = count_tag c (take k l) + count_tag c (drop k l).
Proof. by rewrite <- count_tag_app, take_drop. Qed.

Lemma differ_lines_partition (l : list string) :
  Forall (fun w => differ_line w = true) l ->
  length l = count_tag " " l + count_tag "+" l + count_tag "-" l + count_tag "?" l.
Proof.
  induction 1 as [| w l Hw _ IH]; [done |].
  simpl. rewrite IH. unfold differ_line in Hw.
  destruct w as [| c w]; [discriminate |]. simpl in *.
  destruct (Ascii.eqb c " ") eqn:E1.
  { apply Ascii.eqb_eq in E1. subst c. simpl. lia. }
  destruct (Ascii.eqb c "+") eqn:E2.
  { apply Ascii.eqb_eq in E2. subst c. simpl. lia. }
  destruct (Ascii.eqb c "-") eqn:E3.
  { apply Ascii.eqb_eq in E3. subst c. simpl. lia. }
  simpl in Hw. rewrite Hw. lia.
Qed.

(** C1, as the specification words it, fails: on the three operations Match,
    Insert, Match the Insert stands in the last two positions and is not
    classified, so the counts add up to 2, not 3. *)
Lemma classification_invariant_fails :
  compare_text lcs_differ "a c" "a b c" (Some " ") = Ok ["  a"; "+ b"; "  c"] /\
  ~ classification_invariant ["  a"; "+ b"; "  c"].
Proof.
  split; [reflexivity |].
  intros H. specialize (H 2 0 0 0 (ErrorsDict [] []) eq_refl). discriminate H.
Qed.

(** C1, amended. On every list of [difflib] lines not ending with two
    Annotations the classifier returns, and when it detects no substitution
    pair, inserted_count + deleted_count + 2 * substituted_count +
    correct_count is the number of operations that are not Annotations, less
    the Insert and Delete operations in the last two positions. *)
Theorem get_errors_dict_accounting (l : list string) :
  Forall (fun w => differ_line w = true) l ->
  ends_in_two_annotations l = false ->
  exists c a s r e,
    get_errors_dict l = Ok (c, a, s, r, e) /\
    (r = 0 -> a + s + 2 * r + c + unclassified_tail l = non_annotation_count l).
Proof.
  intros Hl Hend.
  destruct (get_errors_dict_counters l Hl Hend)
    as (c & a & s & r & e & Hget & Hc & Ha & Hs & _).
  exists c, a, s, r, e. split; [done |]. intros ->. subst c a s.
  unfold non_annotation_count, unclassified_tail.
  pose proof (differ_lines_partition l Hl) as Hpart.
  pose proof (count_tag_take_drop "+" (length l - 2) l) as Hplus.
  pose proof (count_tag_take_drop "-" (length l - 2) l) as Hminus.
  lia.
Qed.

Lemma get_errors_dict_accounting_witness :
  exists c a s r e,
    get_errors_dict ["  the"; "- cat"; "  sat"; "+ down"; "  now"] = Ok (c, a, s, r, e) /\
    (r = 0 ->
     a + s + 2 * r + c + unclassified_tail ["  the"; "- cat"; "  sat"; "+ down"; "  now"]
     = non_annotation_count ["  the"; "- cat"; "  sat"; "+ down"; "  now"]).
Proof.
  apply (get_errors_dict_accounting ["  the"; "- cat"; "  sat"; "+ down"; "  now"]).
  - repeat constructor.
  - reflexivity.
Defined.

(** C3 (the code departs from it). On Delete a, Insert b, Match c, Match d
    the Delete and the Insert are paired into the substitution (a, b), and
    both are counted all the same: inserted_count = 1 and deleted_count = 1
    beside substituted_count = 1. *)
Theorem paired_operations_are_counted_twice :
  get_errors_dict ["- a"; "+ b"; "  c"; "  d"]
  = Ok (2, 1, 1, 1, ErrorsDict ["a"] ["b"]).
Proof. reflexivity. Qed.

(** C2 (the code departs from it). On Insert b, Delete a, Delete x, Match c,
    Match d the pair opens with the Insert: the word of the Insert, which is
    the transcript's, is recorded under ['prompt'], and the word of the
    Delete, which is the prompt's, under ['transcript']. *)
Theorem insert_first_pair_is_recorded_swapped :
  get_errors_dict ["+ b"; "- a"; "- x"; "  c"; "  d"]
  = Ok (2, 1, 2, 1, ErrorsDict ["b"] ["a"]).
Proof. reflexivity. Qed.

(** The iteration bound of the look-ahead is never what stops it. *)
Lemma lookahead_exn (dl : list string) n i e :
  forall fuel j,
    n <= i + j + fuel ->
    lookahead dl n i fuel j = Raise e -> e = IndexError.
Proof.
  induction fuel as [| fuel IH]; intros j Hfuel; simpl;
    destruct (i + j <? n) eqn:Hlt; try discriminate;
    apply Nat.ltb_lt in Hlt; try lia.
  unfold getitem. destruct (dl !! (i + j)) as [w |]; simpl; [| congruence].
  destruct w as [| c w]; simpl; [congruence |].
  destruct (Ascii.eqb c "?"); [| discriminate].
  apply IH. lia.
Qed.

Lemma tags_are_exn dl c a k b e :
  tags_are dl c a k b = Raise e -> e = IndexError.
Proof.
  unfold tags_are, getitem. destruct (Ascii.eqb c a); [| discriminate].
  destruct (dl !! k) as [w |]; simpl; [| congruence].
  destruct w; simpl; [congruence | discriminate].
Qed.

Lemma loop_body_exn dl i word st e :
  loop_body dl (length dl) i word st = Raise e -> e = IndexError.
Proof.
  unfold loop_body. destruct word as [| c word]; simpl; [congruence |].
  destruct (Ascii.eqb c " "); [discriminate |].
  destruct (Z.of_nat i <? Z.of_nat (length dl) - 2)%Z; [| discriminate].
  destruct (lookahead dl (length dl) i (length dl) 1) as [j | e'] eqn:Hj; simpl.
  2:{ intros [= <-]. eapply lookahead_exn; [| exact Hj]. lia. }
  destruct (tags_are dl c "+" (i + j) "-") as [pm | e'] eqn:Hpm; simpl.
  2:{ intros [= <-]. apply (tags_are_exn _ _ _ _ _ _ Hpm). }
  destruct (tags_are dl c "-" (i + j) "+") as [mp | e'] eqn:Hmp; simpl.
  2:{ intros [= <-]. apply (tags_are_exn _ _ _ _ _ _ Hmp). }
  unfold getitem.
  destruct pm; [| destruct mp]; try discriminate;
    destruct (dl !! (i + j)); simpl; congruence.
Qed.

(** Whatever the list, the only exception of the classifier is the
    [IndexError] of reading past the end or into an empty line. *)
Lemma get_errors_dict_exn l e :
  get_errors_dict l = Raise e -> e = IndexError.
Proof.
  unfold get_errors_dict.
  assert (H : forall rest i st,
             for_loop l (length l) i rest st = Raise e -> e = IndexError).
  { induction rest as [| word rest IH]; intros i st; simpl; [discriminate |].
    destruct (loop_body l (length l) i word st) as [st' | e'] eqn:Hbody; simpl.
    - apply IH.
    - intros [= <-]. apply (loop_body_exn _ _ _ _ _ Hbody). }
  destruct (for_loop l (length l) 0 l init_state) eqn:Hloop; simpl;
    [discriminate |].
  intros [= <-]. eapply H, Hloop.
Qed.

(** ** compare_text *)

Lemma has_tag_index0 t w : has_tag t w = true -> index0 w = Ok t.
Proof.
  destruct w as [| c w]; [discriminate |]. simpl.
  by intros ->%Ascii.eqb_eq.
Qed.

Lemma getitem_last_snoc {A} (l : list A) x : getitem_last (l ++ [x]) = Ok x.
Proof. unfold getitem_last. by rewrite last_snoc. Qed.

(** The trimming loop pops a trailing run of the tag down to the first line
    of another tag. *)
Lemma trim_loop_run t pre w :
  differ_line w = true -> has_tag t w = false ->
  forall run fuel,
    Forall (fun x => has_tag t x = true) run ->
    length run <= fuel ->
    trim_loop fuel t (pre ++ w :: run) = Ok (pre ++ [w]).
Proof.
  intros Hline Hw run. induction run as [| x run IH] using rev_ind;
    intros fuel Hrun Hfuel.
  - destruct (differ_line_index0 w Hline) as [c Hc].
    replace (pre ++ [w]) with ((pre ++ []) ++ [w]) at 1 by by rewrite app_nil_r.
    destruct fuel; simpl; rewrite getitem_last_snoc; simpl; rewrite Hc; simpl;
      rewrite <- (index0_has_tag _ _ Hc t), Hw; simpl; by rewrite app_nil_r.
  - apply Forall_app in Hrun as [Hrun Hx]. apply Forall_inv in Hx.
    rewrite length_app in Hfuel. simpl in Hfuel.
    destruct fuel as [| fuel]; [lia |].
    replace (pre ++ w :: run ++ [x]) with ((pre ++ w :: run) ++ [x])
      by by rewrite <- app_assoc.
    simpl. rewrite getitem_last_snoc. simpl.
    rewrite (has_tag_index0 _ _ Hx). simpl.
    rewrite Ascii.eqb_refl, length_app, Nat.add_1_r. simpl.
    rewrite removelast_last. apply IH; [done | lia].
Qed.

(** When every line bears the tag, the loop pops them all and then reads the
    last element of an empty list. *)
Lemma trim_loop_one_tag t :
  forall l fuel,
    Forall (fun x => has_tag t x = true) l ->
    length l <= fuel ->
    trim_loop fuel t l = Raise IndexError.
Proof.
  induction l as [| x l IH] using rev_ind; intros fuel Hl Hfuel.
  - by destruct fuel.
  - apply Forall_app in Hl as [Hl Hx]. apply Forall_inv in Hx.
    rewrite length_app in Hfuel. simpl in Hfuel.
    destruct fuel as [| fuel]; [lia |].
    simpl. rewrite getitem_last_snoc. simpl.
    rewrite (has_tag_index0 _ _ Hx). simpl.
    rewrite Ascii.eqb_refl, length_app, Nat.add_1_r. simpl.
    rewrite removelast_last. apply IH; [done | lia].
Qed.

(** The loop returns no empty list, and its iteration bound is never what
    stops it. *)
Lemma trim_loop_result t :
  forall fuel l,
    length l <= fuel ->
    match trim_loop fuel t l with
    | Ok l' => l' <> []
    | Raise e => e = IndexError
    end.
Proof.
  induction fuel as [| fuel IH]; intros l Hfuel.
  - destruct l; [done | simpl in Hfuel; lia].
  - destruct l as [| x l _] using rev_ind; [done |].
    simpl. rewrite getitem_last_snoc. simpl.
    destruct x as [| c x]; [done |]. simpl.
    destruct (Ascii.eqb c t && _).
    + rewrite removelast_last. apply IH.
      rewrite length_app in Hfuel. simpl in Hfuel. lia.
    + by destruct l.
Qed.

Lemma compare_text_never_empty differ a b sep l :
  compare_text differ a b sep = Ok l -> l <> [].
Proof.
  unfold compare_text.
  destruct (split a sep) as [ta |]; simpl; [| discriminate].
  destruct (split b sep) as [tb |]; simpl; [| discriminate].
  destruct (getitem_last (differ ta tb)) as [w |] eqn:Hlast; simpl;
    [| discriminate].
  destruct (index0 w) as [c |]; simpl; [| discriminate].
  destruct (negb (Ascii.eqb c " ")).
  - pose proof (trim_loop_result c (length (differ ta tb)) (differ ta tb)
                  ltac:(lia)) as H.
    intros Heq. by rewrite Heq in H.
  - intros [= <-]. unfold getitem_last in Hlast.
    by destruct (differ ta tb).
Qed.

(** The exceptions of [compare_text] are the [ValueError] of an empty
    separator and the [IndexError] of an empty list or line. *)
Lemma compare_text_exn differ a b sep e :
  compare_text differ a b sep = Raise e -> e = IndexError \/ e = ValueError.
Proof.
  unfold compare_text.
  destruct (split a sep) as [ta | e1] eqn:Ha; simpl.
  2:{ intros [= <-]. right. destruct sep as [[| c sp] |]; simpl in Ha; congruence. }
  destruct (split b sep) as [tb | e1] eqn:Hb; simpl.
  2:{ intros [= <-]. right. destruct sep as [[| c sp] |]; simpl in Hb; congruence. }
  unfold getitem_last.
  destruct (last (differ ta tb)) as [w |]; simpl; [| intros [= <-]; by left].
  destruct w as [| c w]; simpl; [intros [= <-]; by left |].
  destruct (negb (Ascii.eqb c " ")); [| discriminate].
  pose proof (trim_loop_result c (length (differ ta tb)) (differ ta tb)
                ltac:(lia)) as H.
  intros Heq. rewrite Heq in H. by left.
Qed.

Lemma getitem_last_app_cons {A} (l1 l2 : list A) x :
  getitem_last (l1 ++ x :: l2) = getitem_last (x :: l2).
Proof. unfold getitem_last. by rewrite last_app_cons. Qed.

Lemma getitem_last_run t (run : list string) :
  run <> [] -> Forall (fun x => has_tag t x = true) run ->
  exists x, getitem_last run = Ok x /\ index0 x = Ok t.
Proof.
  destruct run as [| x run _] using rev_ind; [done |]. intros _ Hrun.
  apply Forall_app in Hrun as [_ Hx]. apply Forall_inv in Hx.
  exists x. split; [apply getitem_last_snoc | by apply has_tag_index0].
Qed.

(** C6. When the raw list of [difflib] ends with an Insert or a Delete,
    [compare_text] returns it without its whole trailing run of operations of
    that tag: it stops at the last operation of another tag. *)
Theorem compare_text_trims_trailing_run
    (differ_compare : list string -> list string -> list string)
    (string_a string_b : string) (split_car : option string)
    (a b pre run : list string) (w : string) (t : ascii) :
  split string_a split_car = Ok a ->
  split string_b split_car = Ok b ->
  differ_compare a b = pre ++ w :: run ->
  run <> [] ->
  t = "+"%char \/ t = "-"%char ->
  Forall (fun x => has_tag t x = true) run ->
  differ_line w = true ->
  has_tag t w = false ->
  compare_text differ_compare string_a string_b split_car = Ok (pre ++ [w]).
Proof.
  intros Ha Hb Hraw Hne Ht Hrun Hline Hw.
  unfold compare_text. rewrite Ha. simpl. rewrite Hb. simpl. rewrite Hraw.
  destruct run as [| x run]; [done |].
  destruct (getitem_last_run t (x :: run) Hne Hrun) as (y & Hy & Hty).
  rewrite getitem_last_app_cons.
  change (getitem_last (w :: x :: run)) with (getitem_last (x :: run)).
  rewrite Hy. simpl. rewrite Hty. simpl.
  replace (Ascii.eqb t " ") with false by by destruct Ht as [-> | ->].
  simpl negb. cbv iota.
  apply trim_loop_run; [done | done | done |].
  rewrite length_app. simpl. lia.
Qed.

Lemma compare_text_trims_trailing_run_witness :
  compare_text lcs_differ "a" "a b c d e f" (Some " ") = Ok ([] ++ ["  a"]).
Proof.
  apply (compare_text_trims_trailing_run lcs_differ "a" "a b c d e f" (Some " ")
           ["a"] ["a"; "b"; "c"; "d"; "e"; "f"] []
           ["+ b"; "+ c"; "+ d"; "+ e"; "+ f"] "  a" "+").
  - reflexivity.
  - reflexivity.
  - reflexivity.
  - discriminate.
  - by left.
  - repeat constructor.
  - reflexivity.
  - reflexivity.
Defined.

(** Five trailing Insert operations: none is left in the list returned, and
    the classifier counts no insertion. *)
Example five_trailing_inserts_not_counted :
  (l ← compare_text lcs_differ "a" "a b c d e f" (Some " "); get_errors_dict l)
  = Ok (1, 0, 0, 0, ErrorsDict [] []).
Proof. reflexivity. Qed.

(** C7 (the code departs from it). When all the operations of the raw list
    bear one tag that is not Match, as for an empty token sequence against a
    non-empty one, or when the raw list is empty, [compare_text] raises
    [IndexError]: after the last [pop] the loop reads [differ_list[-1]] before
    it looks at the length. *)
Theorem compare_text_one_tag_raises
    (differ_compare : list string -> list string -> list string)
    (string_a string_b : string) (split_car : option string)
    (a b : list string) (t : ascii) :
  split string_a split_car = Ok a ->
  split string_b split_car = Ok b ->
  Ascii.eqb t " " = false ->
  Forall (fun x => has_tag t x = true) (differ_compare a b) ->
  compare_text differ_compare string_a string_b split_car = Raise IndexError.
Proof.
  intros Ha Hb Ht Hall.
  unfold compare_text. rewrite Ha. simpl. rewrite Hb. simpl.
  destruct (decide (differ_compare a b = [])) as [-> | Hne]; [done |].
  destruct (getitem_last_run t _ Hne Hall) as (y & Hy & Hty).
  rewrite Hy. simpl. rewrite Hty. simpl. rewrite Ht. simpl.
  by apply trim_loop_one_tag.
Qed.

Lemma compare_text_one_tag_raises_witness :
  compare_text lcs_differ "" "a b" None = Raise IndexError.
Proof.
  apply (compare_text_one_tag_raises lcs_differ "" "a b" None [] ["a"; "b"] "+").
  - reflexivity.
  - reflexivity.
  - reflexivity.
  - repeat constructor.
Defined.






(** Under a string separator [split] returns at least one token, so the token
    sequences [compare_text] aligns under its default separator are never
    empty. *)
Lemma split_on_nonempty sep s skip cur : split_on sep s skip cur <> [].
Proof.
  revert skip cur. induction s as [| c s IH]; intros skip cur; [done |].
  cbn [split_on]. destruct skip; [| apply IH].
  destruct (String.prefix sep (String c s)); [done | apply IH].
Qed.

Lemma split_string_nonempty s sep A : split s (Some sep) = Ok A -> A <> [].
Proof.
  destruct sep as [| c sep]; [discriminate |].
  intros [= <-]. apply split_on_nonempty.
Qed.

(** ** Dataset.preprocess_data *)

(** The one-row heap is what [Dataset.__init__] makes of a frame: [self.data]
    is a second object, a copy of the first. *)
Example Dataset_init_copies prompt_text transcript_text :
  Dataset_init 1%positive "prompt" "asr_transcript" "scored_duration" "human_wcpm"
    {[1%positive := one_row prompt_text transcript_text]}
  = (Ok one_row_self, one_row_heap prompt_text transcript_text).
Proof. reflexivity. Qed.

Lemma grows_refl h : grows h h.
Proof. by intros l _. Qed.

Lemma grows_dom h0 h l : grows h0 h -> l ∈ dom h0 -> l ∈ dom h.
Proof.
  intros Hg Hl. apply elem_of_dom. rewrite (Hg l Hl). by apply elem_of_dom.
Qed.

Lemma grows_insert h0 h l f :
  grows h0 h -> l ∉ dom h0 -> grows h0 (<[l := f]> h).
Proof.
  intros Hg Hl l' Hl'. rewrite lookup_insert_ne; [by apply Hg |].
  intros ->. contradiction.
Qed.

Lemma fresh_not_in h0 (h : heap) : grows h0 h -> fresh (dom h) ∉ dom h0.
Proof.
  intros Hg Hin. apply (is_fresh (dom h)). by eapply grows_dom.
Qed.

Lemma post_bind {A B} (m : heapM A) (k : A -> heapM B) h Qok Qerr :
  post m h (fun a h1 => post (k a) h1 Qok Qerr) Qerr ->
  post (m ≫= k) h Qok Qerr.
Proof.
  unfold post, mbind, heapM_bind. by destruct (m h) as [[a | e] h1].
Qed.

Lemma post_new_frame h0 h f (Qok : loc -> heap -> Prop) Qerr :
  grows h0 h ->
  (forall l h', grows h h' -> owns h0 h' l f -> Qok l h') ->
  post (new_frame f) h Qok Qerr.
Proof.
  intros Hg HQ. unfold post, new_frame. apply HQ.
  { apply grows_insert; [apply grows_refl | apply is_fresh]. }
  split; [| split].
  - apply grows_insert; [done | by apply fresh_not_in].
  - by apply fresh_not_in.
  - apply lookup_insert_eq.
Qed.

Lemma post_read_frame h l f (Qok : frame -> heap -> Prop) Qerr :
  h !! l = Some f -> Qok f h -> post (read_frame l) h Qok Qerr.
Proof.
  intros Hl HQ. unfold post, read_frame.
  by rewrite (lookup_total_correct _ _ _ Hl).
Qed.

Lemma post_lift {A} (r : result A) h (Qok : A -> heap -> Prop) (Qerr : exn -> heap -> Prop) :
  match r with Ok a => Qok a h | Raise e => Qerr e h end ->
  post (lift r) h Qok Qerr.
Proof. unfold post, lift. by destruct r. Qed.

(** [df = df.applymap(g)] when enabled, nothing otherwise: the frame [df]
    designates afterwards is the one [step] computes, in a new object. *)
Lemma post_step h0 h df f enabled g (Qok : loc -> heap -> Prop) (Qerr : exn -> heap -> Prop) :
  owns h0 h df f ->
  match step enabled g f with
  | Ok f' => forall df' h', grows h h' -> owns h0 h' df' f' -> Qok df' h'
  | Raise e => forall h', grows h0 h' -> Qerr e h'
  end ->
  post (if enabled then rebind_applymap g df else mret df) h Qok Qerr.
Proof.
  intros (Hg & Hfresh & Hdf) HQ. unfold step in HQ. destruct enabled.
  - unfold rebind_applymap. apply post_bind.
    apply (post_read_frame _ _ f); [done |].
    apply post_bind, post_lift.
    destruct (applymap g f) as [f' | e]; [| by apply HQ].
    by apply (post_new_frame h0).
  - unfold post, mret, heapM_ret. apply HQ; [apply grows_refl | done].
Qed.

(** The recomposition step: parse every cell, join the texts of the segments,
    and make [df] designate the new frame. *)
Lemma post_recompose (literal_eval : cell -> result pyval) h0 h df sel
    (enabled : bool) (Qok : loc -> heap -> Prop) (Qerr : exn -> heap -> Prop) :
  owns h0 h df sel ->
  match (if enabled then
           parsed ← applymap literal_eval sel; applymap join_texts parsed
         else Ok sel) with
  | Ok f' => forall df' h', grows h h' -> owns h0 h' df' f' -> Qok df' h'
  | Raise e => forall h', grows h0 h' -> Qerr e h'
  end ->
  post (if enabled then
          f ← read_frame df;
          parsed ← lift (applymap literal_eval f);
          f' ← lift (applymap join_texts parsed);
          new_frame f'
        else mret df) h Qok Qerr.
Proof.
  intros (Hg & Hfresh & Hdf) HQ. destruct enabled.
  - apply post_bind, (post_read_frame _ _ sel); [done |].
    apply post_bind, post_lift.
    destruct (applymap literal_eval sel) as [parsed | e]; [| by apply HQ].
    simpl in HQ. apply post_bind, post_lift.
    destruct (applymap join_texts parsed) as [f' | e]; [| by apply HQ].
    by apply (post_new_frame h0).
  - unfold post, mret, heapM_ret. apply HQ; [apply grows_refl | done].
Qed.

(** The outcome of [preprocess_data] on a heap where [self.data] designates
    [d]: an exception when, and as, the computation of the processed columns
    raises, with every frame alive left as it was; otherwise the processed
    columns, in a new object that is returned, or assigned to the columns of
    [self.data]. *)
Lemma preprocess_data_outcome
    (num2words : string -> reading -> result string)
    (literal_eval : cell -> result pyval) (self : Dataset)
    (lowercase punctuation_free convert_num2words asr_string_recomposition
     inplace : bool) (h : heap) (d : frame) :
  h !! data self = Some d ->
  let columns := [prompt_col self; asr_col self] in
  let processed :=
    sel ← select d columns;
    processed_columns num2words literal_eval lowercase punctuation_free
      convert_num2words asr_string_recomposition sel in
  post (preprocess_data num2words literal_eval self lowercase punctuation_free
          convert_num2words asr_string_recomposition inplace) h
    (fun r h' =>
       exists f, processed = Ok f /\
         if inplace then
           r = None /\
           h' !! data self = Some (setitem_columns d columns f) /\
           (forall l, l ∈ dom h -> l <> data self -> h' !! l = h !! l)
         else
           exists df, r = Some df /\ (df ∉ dom h) /\ h' !! df = Some f /\ grows h h')
    (fun e h' => processed = Raise e /\ grows h h').
Proof.
  intros Hd columns processed.
  unfold preprocess_data, processed, processed_columns.
  fold columns.
  apply post_bind, (post_read_frame _ _ d); [done |].
  apply post_bind, post_lift.
  destruct (select d columns) as [sel | e]; [| split; [done | apply grows_refl]].
  simpl.
  apply post_bind, (post_new_frame h); [apply grows_refl |].
  intros l0 h0 _ (Hg0 & _ & Hl0).
  apply post_bind, (post_read_frame _ _ sel); [done |].
  apply post_bind, (post_new_frame h); [done |].
  intros df1 h1 _ Hown1.
  (* recomposition *)
  apply post_bind, (post_recompose literal_eval h _ _ sel); [done |].
  destruct (if asr_string_recomposition then _ else _) as [f2 | e]; simpl;
    [| by intros h' Hg].
  intros df2 h2 _ Hown2.
  (* lowercase *)
  apply post_bind, (post_step h _ _ f2); [done |].
  destruct (step lowercase lower_cell f2) as [f3 | e]; simpl;
    [| by intros h' Hg].
  intros df3 h3 _ Hown3.
  (* numbers to words *)
  apply post_bind, (post_step h _ _ f3); [done |].
  destruct (step convert_num2words (converter num2words) f3) as [f4 | e]; simpl;
    [| by intros h' Hg].
  intros df4 h4 _ Hown4.
  (* punctuation: [df] still designates the frame of the step before *)
  apply post_bind, (post_step h _ _ f4); [done |].
  destruct (step punctuation_free _ f4) as [f5 | e]; simpl;
    [| by intros h' Hg].
  intros df5 h5 Hg45 (Hg5 & _ & _).
  destruct Hown4 as (Hg4 & Hfresh4 & Hdf4).
  assert (Hdf5 : h5 !! df4 = Some f4).
  { rewrite Hg45; [done |]. apply elem_of_dom. by rewrite Hdf4. }
  (* fillna, in place, on the object made here *)
  apply post_bind, (post_read_frame _ _ f4); [done |].
  apply post_bind. unfold post at 1, write_frame.
  assert (Hg6 : grows h (<[df4 := fillna " " f4]> h5)) by by apply grows_insert.
  assert (Hself : data self ∈ dom h) by (apply elem_of_dom; by rewrite Hd).
  destruct inplace; simpl.
  - apply post_bind, (post_read_frame _ _ d); [by rewrite Hg6 |].
    apply post_bind, (post_read_frame _ _ (fillna " " f4));
      [apply lookup_insert_eq |].
    apply post_bind. unfold post, write_frame, mret, heapM_ret.
    exists (fillna " " f4). split; [done |]. split; [done |].
    split; [apply lookup_insert_eq |].
    intros l Hl Hne. rewrite lookup_insert_ne by done. by apply Hg6.
  - unfold post, mret, heapM_ret.
    exists (fillna " " f4). split; [done |].
    exists df4. split; [done |]. split; [done |].
    split; [apply lookup_insert_eq | done].
Qed.


Lemma get_column_set_column f c col c' :
  c' <> c -> get_column (set_column f c col) c' = get_column f c'.
Proof.
  intros Hne. induction f as [| [c0 col0] f IH]; simpl.
  - by rewrite (proj2 (String.eqb_neq c c')).
  - destruct (String.eqb c0 c) eqn:Hc0; simpl.
    + apply String.eqb_eq in Hc0. subst c0.
      by rewrite (proj2 (String.eqb_neq c c')).
    + by rewrite IH.
Qed.

Lemma get_column_setitem_columns columns c' :
  Forall (fun c => c' <> c) columns ->
  forall value f,
    get_column (setitem_columns f columns value) c' = get_column f c'.
Proof.
  induction 1 as [| c columns Hc _ IH]; intros value f; [done |].
  destruct value as [| [c0 col] value]; [done |]. simpl.
  by rewrite IH, get_column_set_column.
Qed.

(** C10. Wherever [self.data] designates a frame: with [inplace=False] the
    call leaves that frame as it is and returns the processed columns in a
    new object; with [inplace=True] it returns nothing and [self.data] is the
    same frame with the processed columns assigned to the prompt and the
    transcript column, every other column being as before. In both cases no
    other frame alive is changed, and when the call raises, [self.data] is
    as it was. *)
Theorem preprocess_data_frame
    (num2words : string -> reading -> result string)
    (literal_eval : cell -> result pyval) (self : Dataset)
    (lowercase punctuation_free convert_num2words asr_string_recomposition
     inplace : bool) (h : heap) (d : frame) :
  h !! data self = Some d ->
  let columns := [prompt_col self; asr_col self] in
  let processed :=
    sel ← select d columns;
    processed_columns num2words literal_eval lowercase punctuation_free
      convert_num2words asr_string_recomposition sel in
  match preprocess_data num2words literal_eval self lowercase punctuation_free
          convert_num2words asr_string_recomposition inplace h with
  | (Ok ret, h') =>
      (forall l, l ∈ dom h -> l <> data self -> h' !! l = h !! l) /\
      exists f, processed = Ok f /\
        if inplace then
          ret = None /\
          exists d', h' !! data self = Some d' /\
            d' = setitem_columns d columns f /\
            forall c, c <> prompt_col self -> c <> asr_col self ->
                      get_column d' c = get_column d c
        else
          h' !! data self = Some d /\
          exists df, ret = Some df /\ (df ∉ dom h) /\ h' !! df = Some f
  | (Raise e, h') =>
      (forall l, l ∈ dom h -> h' !! l = h !! l) /\ processed = Raise e
  end.
Proof.
  intros Hd columns processed.
  pose proof (preprocess_data_outcome num2words literal_eval self lowercase
                punctuation_free convert_num2words asr_string_recomposition
                inplace h d Hd) as H.
  unfold post in H.
  destruct (preprocess_data _ _ _ _ _ _ _ _ _) as [[ret | e] h'].
  - destruct H as (f & Hf & H). destruct inplace.
    + destruct H as (-> & Hself & Hothers).
      split; [done |]. exists f. split; [done |]. split; [done |].
      eexists. split; [done |]. split; [done |].
      intros c Hp Ha. apply get_column_setitem_columns.
      by repeat constructor.
    + destruct H as (df & -> & Hfresh & Hdf & Hg).
      assert (Hself : data self ∈ dom h) by (apply elem_of_dom; by rewrite Hd).
      split; [intros l Hl _; by apply Hg |].
      exists f. split; [done |]. split; [by rewrite Hg |]. by exists df.
  - by destruct H as [Hf Hg].
Qed.

Lemma preprocess_data_frame_witness :
  let h := one_row_heap "Hello, World!!" "hello world" in
  let d := one_row "Hello, World!!" "hello world" in
  let columns := [prompt_col one_row_self; asr_col one_row_self] in
  let processed :=
    sel ← select d columns;
    processed_columns tagged_reading no_literal true true true false sel in
  match preprocess_data tagged_reading no_literal one_row_self
          true true true false true h with
  | (Ok ret, h') =>
      (forall l, l ∈ dom h -> l <> data one_row_self -> h' !! l = h !! l) /\
      exists f, processed = Ok f /\
        ret = None /\
        exists d', h' !! data one_row_self = Some d' /\
          d' = setitem_columns d columns f /\
          forall c, c <> prompt_col one_row_self -> c <> asr_col one_row_self ->
                    get_column d' c = get_column d c
  | (Raise e, h') =>
      (forall l, l ∈ dom h -> h' !! l = h !! l) /\ processed = Raise e
  end.
Proof.
  apply (preprocess_data_frame tagged_reading no_literal one_row_self
           true true true false true
           (one_row_heap "Hello, World!!" "hello world")
           (one_row "Hello, World!!" "hello world")).
  reflexivity.
Defined.

(** The helper of the punctuation step does what the step is meant to do. *)
Example remove_punctuation_hello :
  remove_punctuation (CStr "hello, world!!")
    (maketrans punctuation (repeat_char " " (String.length punctuation)))
  = Ok (CStr "hello world").
Proof. reflexivity. Qed.

(** C4 (the code departs from it). With the default options, punctuation_free
    among them, [preprocess_data] returns the prompt "hello, world!!" with
    its punctuation: the frame the punctuation step computes is not assigned
    to [df]. *)
Theorem punctuation_survives_preprocessing
    (num2words : string -> reading -> result string)
    (literal_eval : cell -> result pyval) :
  match preprocess_data num2words literal_eval one_row_self
          true true true false false
          (one_row_heap "hello, world!!" "hello world") with
  | (Ok (Some df), h') =>
      h' !! df = Some [("prompt", [CStr "hello, world!!"]);
                       ("asr_transcript", [CStr "hello world"])]
  | _ => False
  end.
Proof.
  pose proof (preprocess_data_outcome num2words literal_eval one_row_self
                true true true false false
                (one_row_heap "hello, world!!" "hello world")
                (one_row "hello, world!!" "hello world") eq_refl) as H.
  unfold post in H.
  destruct (preprocess_data _ _ _ _ _ _ _ _ _) as [[ret | e] h'].
  - destruct H as (f & Hf & df & -> & _ & Hdf & _).
    vm_compute in Hf. injection Hf as <-. exact Hdf.
  - destruct H as [Hf _]. vm_compute in Hf. discriminate Hf.
Qed.

(** The length [converter] tests is the one of the cell, not of the run of
    digits: a cell of four characters gets the year reading whatever its
    digits, and no other cell does. *)
Example converter_four_characters
    (num2words : string -> reading -> result string) :
  converter num2words (CStr "1997") = (r ← num2words "1997" Year; Ok (CStr r)) /\
  converter num2words (CStr "no 7")
  = (r ← num2words "7" Year; Ok (CStr ("no " +:+ r))).
Proof.
  split; [reflexivity |].
  vm_compute. by destruct (num2words _ _).
Qed.

(** C5 (the code departs from it). In "in 1997 i had 3 cats" the run of four
    digits is given the cardinal reading, as the one-digit run is: the cell
    has twenty characters. *)
Theorem four_digit_run_read_as_cardinal
    (num2words : string -> reading -> result string)
    (literal_eval : cell -> result pyval) (w1997 w3 : string) :
  num2words "1997" Cardinal = Ok w1997 ->
  num2words "3" Cardinal = Ok w3 ->
  match preprocess_data num2words literal_eval one_row_self
          true true true false false
          (one_row_heap "in 1997 i had 3 cats" "in 1997 i had 3 cats") with
  | (Ok (Some df), h') =>
      h' !! df
      = Some [("prompt", [CStr ("in " +:+ w1997 +:+ " i had " +:+ w3 +:+ " cats")]);
              ("asr_transcript",
               [CStr ("in " +:+ w1997 +:+ " i had " +:+ w3 +:+ " cats")])]
  | _ => False
  end.
Proof.
  intros H1997 H3.
  pose proof (preprocess_data_outcome num2words literal_eval one_row_self
                true true true false false
                (one_row_heap "in 1997 i had 3 cats" "in 1997 i had 3 cats")
                (one_row "in 1997 i had 3 cats" "in 1997 i had 3 cats")
                eq_refl) as H.
  unfold post in H.
  assert (Hf : (sel ← select (one_row "in 1997 i had 3 cats" "in 1997 i had 3 cats")
                        [prompt_col one_row_self; asr_col one_row_self];
                processed_columns num2words literal_eval true true true false sel)
               = Ok [("prompt", [CStr ("in " +:+ w1997 +:+ " i had " +:+ w3 +:+ " cats")]);
                     ("asr_transcript",
                      [CStr ("in " +:+ w1997 +:+ " i had " +:+ w3 +:+ " cats")])]).
  { vm_compute. rewrite H1997. vm_compute. rewrite H3. reflexivity. }
  destruct (preprocess_data _ _ _ _ _ _ _ _ _) as [[ret | e] h'].
  - destruct H as (f & Hf' & df & -> & _ & Hdf & _).
    rewrite Hf in Hf'. injection Hf' as <-. exact Hdf.
  - destruct H as [Hf' _]. rewrite Hf in Hf'. discriminate Hf'.
Qed.

Lemma four_digit_run_read_as_cardinal_witness :
  match preprocess_data tagged_reading no_literal one_row_self
          true true true false false
          (one_row_heap "in 1997 i had 3 cats" "in 1997 i had 3 cats") with
  | (Ok (Some df), h') =>
      h' !! df
      = Some [("prompt",
               [CStr ("in " +:+ "cardinal1997" +:+ " i had " +:+ "cardinal3"
                      +:+ " cats")]);
              ("asr_transcript",
               [CStr ("in " +:+ "cardinal1997" +:+ " i had " +:+ "cardinal3"
                      +:+ " cats")])]
  | _ => False
  end.
Proof.
  apply (four_digit_run_read_as_cardinal tagged_reading no_literal
           "cardinal1997" "cardinal3").
  - reflexivity.
  - reflexivity.
Defined.

(** * Further properties of the code *)

(** ** get_errors_dict: what the returned tuple always satisfies *)

(** What one iteration that returns does to the lengths and the counters. *)
Lemma loop_body_record dl n i word st st' :
  loop_body dl n i word st = Ok st' ->
  length (prompt (errors st)) = length (transcript (errors st)) ->
  length (prompt (errors st')) = length (transcript (errors st')) /\
  counter st' + add st' + sub st' <= counter st + add st + sub st + 1 /\
  length (prompt (errors st')) + (add st + sub st)
  <= length (prompt (errors st)) + (add st' + sub st') /\
  counter st <= counter st' /\ add st <= add st' /\ sub st <= sub st'.
Proof.
  unfold loop_body.
  set (st0 := if 0 <? skip_next st then set_skip_next st (skip_next st - 1) else st).
  assert (Hst0 : counter st0 = counter st /\ add st0 = add st /\ sub st0 = sub st
                 /\ errors st0 = errors st).
  { subst st0. by destruct (0 <? skip_next st). }
  destruct Hst0 as (Hc0 & Ha0 & Hs0 & He0). clearbody st0.
  destruct word as [| c word]; simpl; [discriminate |].
  destruct (Ascii.eqb c " ").
  { intros [= <-] Hlen. simpl. rewrite Hc0, Ha0, Hs0, He0. repeat split; lia. }
  destruct (Z.of_nat i <? Z.of_nat n - 2)%Z.
  2:{ intros [= <-] Hlen. rewrite Hc0, Ha0, Hs0, He0. repeat split; lia. }
  destruct (lookahead dl n i n 1) as [j |]; simpl; [| discriminate].
  destruct (tags_are dl c "+" (i + j) "-") as [pm |] eqn:Hpm; simpl;
    [| discriminate].
  destruct (tags_are dl c "-" (i + j) "+") as [mp |] eqn:Hmp; simpl;
    [| discriminate].
  unfold tags_are in Hpm, Hmp.
  destruct (Ascii.eqb c "+") eqn:Hplus.
  - apply Ascii.eqb_eq in Hplus. subst c. simpl in Hmp. injection Hmp as <-.
    destruct pm; simpl.
    + destruct (getitem dl (i + j)) as [w |]; simpl; [| discriminate].
      intros [= <-] Hlen. simpl. rewrite Hc0, Ha0, Hs0, He0, !length_app.
      simpl. repeat split; lia.
    + intros [= <-] Hlen. simpl. rewrite Hc0, Ha0, Hs0, He0. repeat split; lia.
  - injection Hpm as <-. simpl.
    destruct (Ascii.eqb c "-") eqn:Hminus.
    + destruct mp; simpl.
      * destruct (getitem dl (i + j)) as [w |]; simpl; [| discriminate].
        intros [= <-] Hlen. simpl. rewrite Hc0, Ha0, Hs0, He0, !length_app.
        simpl. repeat split; lia.
      * intros [= <-] Hlen. simpl. rewrite Hc0, Ha0, Hs0, He0.
        repeat split; lia.
    + injection Hmp as <-. intros [= <-] Hlen. simpl.
      rewrite Hc0, Ha0, Hs0, He0. repeat split; lia.
Qed.

Lemma for_loop_record dl n :
  forall rest i st st',
    for_loop dl n i rest st = Ok st' ->
    length (prompt (errors st)) = length (transcript (errors st)) ->
    length (prompt (errors st')) = length (transcript (errors st')) /\
    counter st' + add st' + sub st' <= counter st + add st + sub st + length rest /\
    length (prompt (errors st')) + (add st + sub st)
    <= length (prompt (errors st)) + (add st' + sub st').
Proof.
  induction rest as [| word rest IH]; intros i st st'; simpl.
  - intros [= <-] Hlen. repeat split; [done | lia | lia].
  - destruct (loop_body dl n i word st) as [st1 |] eqn:Hbody; simpl;
      [| discriminate].
    intros Hloop Hlen.
    destruct (loop_body_record _ _ _ _ _ _ Hbody Hlen) as (Hlen1 & Hsum1 & Hrep1 & _).
    destruct (IH _ _ _ Hloop Hlen1) as (Hlen' & Hsum' & Hrep').
    repeat split; [done | lia | lia].
Qed.

(** X1. Whenever the classifier returns, the number of substitutions is the
    length of both word lists, every substitution was opened by an operation
    counted as an insertion or a deletion, and the three counters together do
    not exceed the number of operations. *)
Theorem get_errors_dict_record (l : list string) c a s r e :
  get_errors_dict l = Ok (c, a, s, r, e) ->
  r = length (prompt e) /\
  r = length (transcript e) /\
  r <= a + s /\
  c + a + s <= length l.
Proof.
  unfold get_errors_dict.
  destruct (for_loop l (length l) 0 l init_state) as [st |] eqn:Hloop; simpl;
    [| discriminate].
  intros [= <- <- <- <- <-].
  destruct (for_loop_record _ _ _ _ _ _ Hloop eq_refl) as (Hlen & Hsum & Hrep).
  simpl in Hsum, Hrep. repeat split; [done | lia | lia].
Qed.

Lemma get_errors_dict_record_witness :
  2 = length (prompt (ErrorsDict ["a"; "b"] ["b"; "c"])) /\
  2 = length (transcript (ErrorsDict ["a"; "b"] ["b"; "c"])) /\
  2 <= 1 + 2 /\
  2 + 1 + 2 <= length ["- a"; "+ b"; "- c"; "  d"; "  e"].
Proof.
  apply (get_errors_dict_record ["- a"; "+ b"; "- c"; "  d"; "  e"]
           2 1 2 2 (ErrorsDict ["a"; "b"] ["b"; "c"])).
  reflexivity.
Defined.

(** ** get_errors_dict: short lists and the read past the end *)

Lemma for_loop_app dl n l1 :
  forall l2 i st,
    for_loop dl n i (l1 ++ l2) st
    = (st' ← for_loop dl n i l1 st; for_loop dl n (i + length l1) l2 st').
Proof.
  induction l1 as [| w l1 IH]; intros l2 i st; simpl.
  - by rewrite Nat.add_0_r.
  - destruct (loop_body dl n i w st) as [st1 |]; simpl; [| done].
    rewrite IH. by replace (S i + length l1) with (i + S (length l1)) by lia.
Qed.

(** An iteration returns as soon as some later line is not an Annotation. *)
Lemma loop_body_returns (dl : list string) i word st :
  Forall (fun w => differ_line w = true) dl ->
  differ_line word = true ->
  (i + 2 < length dl ->
   exists k w, i + 1 <= k /\ dl !! k = Some w /\ has_tag "?" w = false) ->
  exists st', loop_body dl (length dl) i word st = Ok st'.
Proof.
  intros Hdl Hword Hlater. unfold loop_body.
  destruct (differ_line_index0 _ Hword) as [c Hc]. rewrite Hc. simpl.
  rewrite guard_ltb.
  destruct (Ascii.eqb c " "); [by eexists |].
  destruct (i + 2 <? length dl) eqn:Hguard; [| by eexists].
  apply Nat.ltb_lt in Hguard.
  destruct (lookahead_returns dl i Hdl (length dl) 1) as [j [Hj Hdisj]]; [lia |].
  rewrite Hj. simpl.
  assert (Hin : i + j < length dl).
  { destruct Hdisj as [? | Hall]; [done |].
    destruct (Hlater Hguard) as (k & w & Hk & Hw & Hq).
    rewrite (Hall k w Hk Hw) in Hq. discriminate. }
  destruct (lookup_lt_is_Some_2 dl (i + j) Hin) as [w Hw].
  destruct (differ_line_index0 w (Forall_lookup_1 _ _ _ _ Hdl Hw)) as [c' Hc'].
  unfold tags_are. rewrite (getitem_lookup _ _ _ Hw). simpl. rewrite Hc'. simpl.
  destruct (Ascii.eqb c "+"), (Ascii.eqb c "-"), (Ascii.eqb c' "-"),
    (Ascii.eqb c' "+"); simpl; rewrite ?(getitem_lookup _ _ _ Hw); by eexists.
Qed.

Lemma for_loop_returns (dl : list string) k w :
  Forall (fun x => differ_line x = true) dl ->
  dl !! k = Some w -> has_tag "?" w = false ->
  forall rest i st,
    Forall (fun x => differ_line x = true) rest ->
    i + length rest <= k ->
    exists st', for_loop dl (length dl) i rest st = Ok st'.
Proof.
  intros Hdl Hk Hw rest. induction rest as [| word rest IH]; intros i st Hrest Hi.
  - by exists st.
  - apply Forall_cons in Hrest as [Hword Hrest]. simpl in Hi.
    destruct (loop_body_returns dl i word st Hdl Hword) as [st1 Hbody].
    { intros _. exists k, w. split; [lia | done]. }
    simpl. rewrite Hbody. simpl. apply IH; [done | lia].
Qed.

(** The look-ahead started right after position [length l1] passes over a
    run of Annotations and stops on the line after it, or past the end. *)
Lemma lookahead_over_annotations l1 word rest :
  match rest with
  | [] => True
  | w :: _ => w <> "" /\ has_tag "?" w = false
  end ->
  forall annots passed fuel dl n p,
    dl = l1 ++ word :: passed ++ annots ++ rest ->
    n = length dl ->
    p = length passed ->
    Forall (fun x => has_tag "?" x = true) annots ->
    length annots <= fuel ->
    lookahead dl n (length l1) fuel (1 + p) = Ok (1 + p + length annots).
Proof.
  intros Hrest annots. induction annots as [| x annots IH];
    intros passed fuel dl n p Hdl Hn Hp Hannots Hfuel.
  - simpl in Hdl. rewrite Nat.add_0_r.
    assert (Hlen : n = length l1 + (1 + p) + length rest).
    { subst. rewrite length_app. simpl. rewrite length_app. lia. }
    destruct rest as [| w rest].
    + destruct fuel; cbn [lookahead];
        replace (length l1 + (1 + p) <? n) with false; try done;
        symmetry; apply Nat.ltb_ge; simpl in Hlen; lia.
    + destruct Hrest as [Hne Hq].
      assert (Hw : dl !! (length l1 + (1 + p)) = Some w).
      { subst dl p. rewrite lookup_app_r by lia.
        replace (length l1 + (1 + length passed) - length l1)
          with (S (length passed)) by lia.
        simpl. rewrite lookup_app_r by lia.
        by replace (length passed - length passed) with 0 by lia. }
      destruct w as [| c w]; [done |]. simpl in Hq.
      destruct fuel; cbn [lookahead];
        (replace (length l1 + (1 + p) <? n) with true
           by (symmetry; apply Nat.ltb_lt; simpl in Hlen; lia));
        rewrite (getitem_lookup _ _ _ Hw); simpl; by rewrite Hq.
  - apply Forall_cons in Hannots as [Hx Hannots]. simpl in Hfuel.
    destruct fuel as [| fuel]; [lia |].
    assert (Hlen : n = length l1 + (1 + p) + S (length annots + length rest)).
    { subst. rewrite length_app. simpl. rewrite !length_app. simpl.
      rewrite length_app. lia. }
    assert (Hlook : dl !! (length l1 + (1 + p)) = Some x).
    { subst dl p. rewrite lookup_app_r by lia.
      replace (length l1 + (1 + length passed) - length l1)
        with (S (length passed)) by lia.
      simpl. rewrite lookup_app_r by lia.
      by replace (length passed - length passed) with 0 by lia. }
    cbn [lookahead].
    replace (length l1 + (1 + p) <? n) with true
      by (symmetry; apply Nat.ltb_lt; lia).
    rewrite (getitem_lookup _ _ _ Hlook). simpl.
    rewrite (has_tag_index0 _ _ Hx). simpl.
    replace (S (p + 1)) with (1 + (p + 1)) by lia.
    rewrite (IH (passed ++ [x]) fuel dl n (p + 1)).
    + f_equal. simpl. lia.
    + subst dl. by rewrite <- app_assoc.
    + done.
    + subst p. rewrite length_app. simpl. lia.
    + done.
    + lia.
Qed.

(** X2. On a list of at most two operations the classifier counts the Match
    operations and nothing else: whatever the operations are, no insertion,
    deletion or substitution is reported. *)
Theorem get_errors_dict_short_list (l : list string) :
  length l <= 2 ->
  Forall (fun w => w <> "") l ->
  get_errors_dict l = Ok (count_tag " " l, 0, 0, 0, ErrorsDict [] []).
Proof.
  intros Hlen Hne.
  destruct l as [| w1 [| w2 [| w3 l]]]; [done | | | simpl in Hlen; lia].
  - apply Forall_inv in Hne. destruct w1 as [| c1 w1]; [done |].
    unfold get_errors_dict. simpl. unfold loop_body. simpl.
    by destruct (Ascii.eqb c1 " ").
  - pose proof (Forall_inv Hne) as H1.
    pose proof (Forall_inv (Forall_inv_tail Hne)) as H2.
    destruct w1 as [| c1 w1]; [done |]. destruct w2 as [| c2 w2]; [done |].
    unfold get_errors_dict. simpl. unfold loop_body. simpl.
    destruct (Ascii.eqb c1 " "); simpl; unfold loop_body; simpl;
      by destruct (Ascii.eqb c2 " ").
Qed.

Lemma get_errors_dict_short_list_witness :
  get_errors_dict ["- cat"; "+ dog"]
  = Ok (count_tag " " ["- cat"; "+ dog"], 0, 0, 0, ErrorsDict [] []).
Proof.
  apply (get_errors_dict_short_list ["- cat"; "+ dog"]).
  - simpl. lia.
  - repeat constructor; discriminate.
Defined.

(** X3. The guard [i < n - 2] does not keep the look-ahead inside the list:
    when an Insert or a Delete is followed by Annotation lines only, two of
    them or more, up to the end of the list, the classifier raises
    [IndexError]. *)
Theorem get_errors_dict_annotation_tail_raises (pre annots : list string) (w : string) :
  Forall (fun x => differ_line x = true) pre ->
  has_tag "+" w || has_tag "-" w = true ->
  Forall (fun x => has_tag "?" x = true) annots ->
  2 <= length annots ->
  get_errors_dict (pre ++ w :: annots) = Raise IndexError.
Proof.
  intros Hpre Hw Hannots Hlen.
  assert (Hwq : has_tag "?" w = false).
  { destruct w as [| c w]; [done |]. simpl in *.
    destruct (Ascii.eqb c "+") eqn:E1.
    - apply Ascii.eqb_eq in E1. by subst c.
    - simpl in Hw. apply Ascii.eqb_eq in Hw. by subst c. }
  assert (Hwline : differ_line w = true).
  { unfold differ_line. apply orb_true_iff in Hw as [-> | ->];
      by rewrite ?orb_true_r. }
  assert (Hdl : Forall (fun x => differ_line x = true) (pre ++ w :: annots)).
  { apply Forall_app. split; [done |]. apply Forall_cons. split; [done |].
    eapply Forall_impl; [exact Hannots |]. intros x Hx. unfold differ_line.
    by rewrite Hx, !orb_true_r. }
  assert (Hn : length (pre ++ w :: annots) = length pre + S (length annots)).
  { rewrite length_app. simpl. lia. }
  unfold get_errors_dict. rewrite for_loop_app.
  destruct (for_loop_returns (pre ++ w :: annots) (length pre) w Hdl
              (list_lookup_middle _ _ _ _ eq_refl) Hwq pre 0 init_state Hpre
              ltac:(lia)) as [st Hst].
  rewrite Hst. simpl.
  assert (Hbody : forall st0,
            loop_body (pre ++ w :: annots) (length (pre ++ w :: annots))
              (length pre) w st0 = Raise IndexError).
  { intros st0. unfold loop_body.
    destruct (differ_line_index0 _ Hwline) as [c Hc]. rewrite Hc. simpl.
    rewrite guard_ltb.
    pose proof (index0_has_tag _ _ Hc) as Htag.
    rewrite !Htag in Hw. rewrite Htag in Hwq.
    assert (Hsp : Ascii.eqb c " " = false).
    { apply orb_true_iff in Hw as [Hw | Hw]; apply Ascii.eqb_eq in Hw;
        by subst c. }
    rewrite Hsp.
    replace (length pre + 2 <? length (pre ++ w :: annots)) with true
      by (symmetry; apply Nat.ltb_lt; lia).
    rewrite (lookahead_over_annotations pre w [] I annots [] _
               (pre ++ w :: annots) _ 0);
      [| by rewrite app_nil_r | done | done | done | lia].
    simpl. unfold tags_are, getitem.
    rewrite (lookup_ge_None_2 (pre ++ w :: annots)
               (length pre + S (length annots))) by lia.
    apply orb_true_iff in Hw as [Hw | Hw]; rewrite Hw; simpl; [done |].
    apply Ascii.eqb_eq in Hw. by subst c. }
  by rewrite Hbody.
Qed.

Lemma get_errors_dict_annotation_tail_raises_witness :
  get_errors_dict (["  a"] ++ "+ b" :: ["? ^"; "? ^"]) = Raise IndexError.
Proof.
  apply (get_errors_dict_annotation_tail_raises ["  a"] ["? ^"; "? ^"] "+ b").
  - repeat constructor.
  - reflexivity.
  - repeat constructor.
  - simpl. lia.
Defined.

(** ** get_errors_dict: one replaced word *)

Lemma prefix_cons a b s1 s2 :
  String.prefix (String a s1) (String b s2)
  = if ascii_dec a b then String.prefix s1 s2 else false.
Proof. reflexivity. Qed.

Lemma prefix_blank_no_blank x :
  no_blank x = true -> String.prefix " " x = false.
Proof.
  destruct x as [| c x]; [done |]. cbn [no_blank].
  intros [Hc _]%andb_true_iff. rewrite prefix_cons.
  destruct (ascii_dec " " c) as [<- | Hne]; [| done].
  by vm_compute in Hc.
Qed.

Lemma replace_from_cons old new c s :
  replace_from old new (String c s) 0
  = if String.prefix old (String c s)
    then new +:+ replace_from old new s (String.length old - 1)
    else String c (replace_from old new s 0).
Proof. reflexivity. Qed.

Lemma replace_from_skip old new c s k :
  replace_from old new (String c s) (S k) = replace_from old new s k.
Proof. reflexivity. Qed.

Lemma replace_from_no_blank t x :
  no_blank x = true -> replace_from (String t " ") "" x 0 = x.
Proof.
  induction x as [| c x IH]; [done |]. cbn [no_blank].
  intros [Hc Hx]%andb_true_iff. rewrite replace_from_cons, prefix_cons.
  destruct (ascii_dec t c) as [-> | Hne]; [| by rewrite IH].
  by rewrite (prefix_blank_no_blank x Hx), IH.
Qed.

(** On the line of a token without a blank, [replace] strips the tag and
    nothing else. *)
Lemma replace_strips_tag t x :
  no_blank x = true ->
  replace (String t (String " " x)) (String t " ") "" = x.
Proof.
  intros Hx. unfold replace. rewrite replace_from_cons, !prefix_cons.
  destruct (ascii_dec t t) as [_ | Hne]; [| done].
  destruct (ascii_dec " " " ") as [_ | Hne]; [| done].
  change (String.length (String t " ") - 1) with 1.
  rewrite replace_from_skip.
  replace (String.prefix "" x) with true by by destruct x.
  cbn [String.append]. by apply replace_from_no_blank.
Qed.

Lemma replace_delete_line x :
  no_blank x = true -> replace (delete_line x) "- " "" = x.
Proof. exact (replace_strips_tag "-" x). Qed.

Lemma replace_insert_line y :
  no_blank y = true -> replace (insert_line y) "+ " "" = y.
Proof. exact (replace_strips_tag "+" y). Qed.

Lemma loop_body_match dl n i x st :
  exists st', loop_body dl n i (match_line x) st = Ok st' /\
    counts st' = (counter st + 1, add st, sub st, errors st).
Proof.
  unfold loop_body. simpl. eexists. split; [done |].
  unfold counts. by destruct (0 <? skip_next st).
Qed.

Lemma for_loop_match_lines dl n :
  forall A i st,
    exists st', for_loop dl n i (map match_line A) st = Ok st' /\
      counts st' = (counter st + length A, add st, sub st, errors st).
Proof.
  induction A as [| x A IH]; intros i st.
  - exists st. simpl. unfold counts. by rewrite Nat.add_0_r.
  - destruct (loop_body_match dl n i x st) as (st1 & Hbody & Hc1).
    destruct (IH (S i) st1) as (st' & Hloop & Hc).
    exists st'. cbn [map for_loop]. rewrite Hbody. simpl. split; [done |].
    rewrite Hc. unfold counts in Hc1. injection Hc1 as -> -> -> ->.
    simpl. do 3 f_equal. lia.
Qed.

Lemma loop_body_annotation (dl : list string) i word st :
  Forall (fun w => differ_line w = true) dl ->
  has_tag "?" word = true ->
  (i + 2 < length dl ->
   exists k w, i + 1 <= k /\ dl !! k = Some w /\ has_tag "?" w = false) ->
  exists st', loop_body dl (length dl) i word st = Ok st' /\ counts st' = counts st.
Proof.
  intros Hdl Hword Hlater.
  unfold loop_body. rewrite (has_tag_index0 _ _ Hword). simpl.
  rewrite guard_ltb.
  assert (Hst0 : counts (if 0 <? skip_next st
                         then set_skip_next st (skip_next st - 1) else st)
                 = counts st) by by destruct (0 <? skip_next st).
  destruct (i + 2 <? length dl) eqn:Hguard; [| by eexists].
  destruct (lookahead_returns dl i Hdl (length dl) 1) as [j [Hj _]]; [lia |].
  rewrite Hj. simpl. eexists. split; [done |]. by rewrite <- Hst0.
Qed.

Lemma for_loop_annotations (dl : list string) k w :
  Forall (fun x => differ_line x = true) dl ->
  dl !! k = Some w -> has_tag "?" w = false ->
  forall annots i st,
    Forall (fun x => has_tag "?" x = true) annots ->
    i + length annots <= k ->
    exists st', for_loop dl (length dl) i annots st = Ok st' /\
      counts st' = counts st.
Proof.
  intros Hdl Hk Hw annots. induction annots as [| x annots IH];
    intros i st Hannots Hi.
  - by exists st.
  - apply Forall_cons in Hannots as [Hx Hannots]. simpl in Hi.
    destruct (loop_body_annotation dl i x st Hdl Hx) as (st1 & Hbody & Hc1).
    { intros _. exists k, w. split; [lia | done]. }
    destruct (IH (S i) st1 Hannots ltac:(lia)) as (st' & Hloop & Hc).
    exists st'. simpl. rewrite Hbody. simpl. split; [done |]. congruence.
Qed.

Lemma loop_body_delete_then_insert l1 x annots y rest st :
  Forall (fun w => has_tag "?" w = true) annots ->
  1 <= length annots + length rest ->
  exists st',
    loop_body (l1 ++ delete_line x :: annots ++ insert_line y :: rest)
      (length (l1 ++ delete_line x :: annots ++ insert_line y :: rest))
      (length l1) (delete_line x) st = Ok st' /\
    counts st'
    = (counter st, add st, sub st + 1,
       ErrorsDict (prompt (errors st) ++ [replace (delete_line x) "- " ""])
                  (transcript (errors st) ++ [replace (insert_line y) "+ " ""])).
Proof.
  intros Hannots Hlen.
  set (dl := l1 ++ delete_line x :: annots ++ insert_line y :: rest).
  assert (Hn : length dl = length l1 + S (length annots + S (length rest))).
  { subst dl. rewrite length_app. simpl. rewrite length_app. simpl. lia. }
  assert (Hj : lookahead dl (length dl) (length l1) (length dl) 1
               = Ok (S (length annots))).
  { apply (lookahead_over_annotations l1 (delete_line x) (insert_line y :: rest))
      with (passed := []) (p := 0); [done | done | done | done | done | lia]. }
  assert (Hy : dl !! (length l1 + S (length annots)) = Some (insert_line y)).
  { subst dl. rewrite lookup_app_r by lia.
    replace (length l1 + S (length annots) - length l1)
      with (S (length annots)) by lia.
    simpl. rewrite lookup_app_r by lia.
    by replace (length annots - length annots) with 0 by lia. }
  unfold loop_body. cbn [delete_line String.append index0]. simpl mbind.
  rewrite guard_ltb.
  replace (length l1 + 2 <? length dl) with true
    by (symmetry; apply Nat.ltb_lt; lia).
  change (Ascii.eqb "-" " ") with false. change (Ascii.eqb "-" "+") with false.
  change (Ascii.eqb "-" "-") with true. cbv iota.
  rewrite Hj. simpl mbind. unfold tags_are.
  change (Ascii.eqb "-" "+") with false. change (Ascii.eqb "-" "-") with true.
  cbv iota. rewrite (getitem_lookup _ _ _ Hy). simpl.
  eexists. split; [done |]. unfold counts. simpl.
  by destruct (0 <? skip_next st).
Qed.

Lemma loop_body_insert_alone l1 y annots z rest st :
  Forall (fun w => has_tag "?" w = true) annots ->
  1 <= length annots + length rest ->
  exists st',
    loop_body (l1 ++ insert_line y :: annots ++ match_line z :: rest)
      (length (l1 ++ insert_line y :: annots ++ match_line z :: rest))
      (length l1) (insert_line y) st = Ok st' /\
    counts st' = (counter st, add st + 1, sub st, errors st).
Proof.
  intros Hannots Hlen.
  set (dl := l1 ++ insert_line y :: annots ++ match_line z :: rest).
  assert (Hn : length dl = length l1 + S (length annots + S (length rest))).
  { subst dl. rewrite length_app. simpl. rewrite length_app. simpl. lia. }
  assert (Hj : lookahead dl (length dl) (length l1) (length dl) 1
               = Ok (S (length annots))).
  { apply (lookahead_over_annotations l1 (insert_line y) (match_line z :: rest))
      with (passed := []) (p := 0); [done | done | done | done | done | lia]. }
  assert (Hz : dl !! (length l1 + S (length annots)) = Some (match_line z)).
  { subst dl. rewrite lookup_app_r by lia.
    replace (length l1 + S (length annots) - length l1)
      with (S (length annots)) by lia.
    simpl. rewrite lookup_app_r by lia.
    by replace (length annots - length annots) with 0 by lia. }
  unfold loop_body. cbn [insert_line String.append index0]. simpl mbind.
  rewrite guard_ltb.
  replace (length l1 + 2 <? length dl) with true
    by (symmetry; apply Nat.ltb_lt; lia).
  change (Ascii.eqb "+" " ") with false. change (Ascii.eqb "+" "+") with true.
  cbv iota.
  rewrite Hj. simpl mbind. unfold tags_are.
  change (Ascii.eqb "+" "+") with true. change (Ascii.eqb "+" "-") with false.
  cbv iota. rewrite (getitem_lookup _ _ _ Hz). simpl.
  eexists. split; [done |]. unfold counts. simpl.
  by destruct (0 <? skip_next st).
Qed.

Lemma match_line_is_differ_line x : differ_line (match_line x) = true.
Proof. reflexivity. Qed.

Lemma Forall_match_lines A :
  Forall (fun w => differ_line w = true) (map match_line A).
Proof. induction A; by constructor. Qed.

Lemma annotation_is_differ_line w : has_tag "?" w = true -> differ_line w = true.
Proof. intros H. unfold differ_line. by rewrite H, !orb_true_r. Qed.

(** X4. One replaced word. In a list of Match lines around a Delete of [x]
    and, after it, an Insert of [y], each possibly followed by Annotation
    lines, with two Match lines or more at the end, the classifier reports
    the one substitution [(x, y)], the words without their tags, and all the
    Match lines as correct; the Delete and the Insert are counted as one
    deletion and one insertion as well. *)
Theorem get_errors_dict_one_substitution
    (pre post annots1 annots2 : list string) (x y : string) :
  no_blank x = true ->
  no_blank y = true ->
  Forall (fun w => has_tag "?" w = true) annots1 ->
  Forall (fun w => has_tag "?" w = true) annots2 ->
  2 <= length post ->
  get_errors_dict
    (map match_line pre ++ delete_line x :: annots1 ++
     insert_line y :: annots2 ++ map match_line post)
  = Ok (length pre + length post, 1, 1, 1, ErrorsDict [x] [y]).
Proof.
  intros Hx Hy Ha1 Ha2 Hpost.
  destruct post as [| z post]; [simpl in Hpost; lia |].
  simpl in Hpost. cbn [map].
  set (A := map match_line pre). set (D := map match_line post).
  set (dl := A ++ delete_line x :: annots1 ++
             insert_line y :: annots2 ++ match_line z :: D).
  assert (HlenA : length A = length pre) by apply length_map.
  assert (HlenD : length D = length post) by apply length_map.
  assert (Hdl : Forall (fun w => differ_line w = true) dl).
  { subst dl A D.
    apply Forall_app; split; [apply Forall_match_lines |].
    apply Forall_cons; split; [done |].
    apply Forall_app; split;
      [eapply Forall_impl; [exact Ha1 | apply annotation_is_differ_line] |].
    apply Forall_cons; split; [done |].
    apply Forall_app; split;
      [eapply Forall_impl; [exact Ha2 | apply annotation_is_differ_line] |].
    apply Forall_cons; split; [done | apply Forall_match_lines]. }
  assert (Hins : dl !! (length A + S (length annots1)) = Some (insert_line y)).
  { subst dl. rewrite lookup_app_r by lia.
    replace (length A + S (length annots1) - length A)
      with (S (length annots1)) by lia.
    simpl. rewrite lookup_app_r by lia.
    by replace (length annots1 - length annots1) with 0 by lia. }
  assert (Hdl2 : dl = (A ++ delete_line x :: annots1) ++
                      insert_line y :: annots2 ++ match_line z :: D).
  { subst dl. by rewrite <- app_assoc. }
  assert (Hz : dl !! (length (A ++ delete_line x :: annots1)
                      + S (length annots2)) = Some (match_line z)).
  { rewrite Hdl2. rewrite lookup_app_r by lia.
    replace (length (A ++ delete_line x :: annots1) + S (length annots2)
             - length (A ++ delete_line x :: annots1))
      with (S (length annots2)) by lia.
    simpl. rewrite lookup_app_r by lia.
    by replace (length annots2 - length annots2) with 0 by lia. }
  assert (Hl2 : length (A ++ delete_line x :: annots1)
                = length A + S (length annots1)).
  { rewrite length_app. simpl. lia. }
  unfold get_errors_dict. fold dl.
  (* the Match lines before *)
  unfold dl at 3. rewrite for_loop_app.
  destruct (for_loop_match_lines dl (length dl) pre 0 init_state)
    as (st1 & Hst1 & Hc1).
  fold A in Hst1. simpl Nat.add. rewrite Hst1. cbn [mbind result_bind bind]; simpl Nat.add. cbn [for_loop].
  (* the Delete opens the pair *)
  destruct (loop_body_delete_then_insert A x annots1 y
              (annots2 ++ match_line z :: D) st1 Ha1)
    as (st2 & Hst2 & Hc2).
  { rewrite length_app. simpl. lia. }
  fold dl in Hst2. rewrite Hst2. cbn [mbind result_bind bind]; simpl Nat.add.
  (* the Annotations after it *)
  rewrite for_loop_app. simpl Nat.add.
  destruct (for_loop_annotations dl _ _ Hdl Hins eq_refl annots1
              (S (length A)) st2 Ha1 ltac:(lia)) as (st3 & Hst3 & Hc3).
  rewrite Hst3. cbn [mbind result_bind bind]; simpl Nat.add. cbn [for_loop].
  (* the Insert finds a Match line *)
  destruct (loop_body_insert_alone (A ++ delete_line x :: annots1) y annots2 z
              D st3 Ha2 ltac:(lia)) as (st4 & Hst4 & Hc4).
  rewrite <- Hdl2, Hl2 in Hst4.
  replace (length A + S (length annots1))
    with (S (length A + length annots1)) in Hst4 by lia.
  rewrite Hst4. cbn [mbind result_bind bind]; simpl Nat.add.
  (* the Annotations after it, and the Match lines at the end *)
  rewrite for_loop_app. simpl Nat.add.
  rewrite Hl2 in Hz.
  destruct (for_loop_annotations dl _ _ Hdl Hz eq_refl annots2
              (S (S (length A + length annots1))) st4 Ha2 ltac:(lia))
    as (st5 & Hst5 & Hc5).
  rewrite Hst5. cbn [mbind result_bind bind]; simpl Nat.add.
  match goal with
  | |- context [for_loop dl (length dl) ?i (match_line z :: D) st5] =>
      destruct (for_loop_match_lines dl (length dl) (z :: post) i st5)
        as (st6 & Hst6 & Hc6)
  end.
  cbn [map] in Hst6. fold D in Hst6. rewrite Hst6. cbn [mbind result_bind bind]; simpl Nat.add.
  (* the counts *)
  unfold counts in *.
  injection Hc1 as Hc1 Ha1' Hs1 He1.
  injection Hc2 as Hc2 Ha2' Hs2 He2.
  injection Hc3 as Hc3 Ha3 Hs3 He3.
  injection Hc4 as Hc4 Ha4 Hs4 He4.
  injection Hc5 as Hc5 Ha5 Hs5 He5.
  injection Hc6 as Hc6 Ha6 Hs6 He6.
  rewrite He6, He5, He4, He3, He2, He1.
  rewrite Hc6, Hc5, Hc4, Hc3, Hc2, Hc1.
  rewrite Ha6, Ha5, Ha4, Ha3, Ha2', Ha1'.
  rewrite Hs6, Hs5, Hs4, Hs3, Hs2, Hs1.
  rewrite (replace_delete_line x Hx), (replace_insert_line y Hy).
  reflexivity.
Qed.

Lemma get_errors_dict_one_substitution_witness :
  get_errors_dict
    (map match_line ["the"] ++ delete_line "cat" :: ["?   ^"] ++
     insert_line "car" :: ["?   ^"] ++ map match_line ["sat"; "down"])
  = Ok (length ["the"] + length ["sat"; "down"], 1, 1, 1,
        ErrorsDict ["cat"] ["car"]).
Proof.
  apply (get_errors_dict_one_substitution ["the"] ["sat"; "down"]
           ["?   ^"] ["?   ^"] "cat" "car").
  - reflexivity.
  - reflexivity.
  - repeat constructor.
  - repeat constructor.
  - simpl. lia.
Defined.

(** ** compare_text: what the trimming keeps *)

Lemma count_tag_run t c (run : list string) :
  Forall (fun x => has_tag t x = true) run ->
  Ascii.eqb t c = false ->
  count_tag c run = 0.
Proof.
  intros Hrun Hne. induction Hrun as [| x run Hx _ IH]; [done |].
  simpl. rewrite IH. destruct x as [| c' x]; [done |]. simpl in *.
  apply Ascii.eqb_eq in Hx. subst c'. by rewrite Hne.
Qed.

Lemma trim_loop_outcome t :
  forall l fuel,
    length l <= fuel ->
    Forall (fun x => differ_line x = true) l ->
    match trim_loop fuel t l with
    | Ok l' =>
        exists run, l = l' ++ run /\
          Forall (fun x => has_tag t x = true) run /\
          exists l0 w, l' = l0 ++ [w] /\ has_tag t w = false
    | Raise e => e = IndexError /\ Forall (fun x => has_tag t x = true) l
    end.
Proof.
  induction l as [| x l IH] using rev_ind; intros fuel Hfuel Hl.
  - by destruct fuel.
  - apply Forall_app in Hl as [Hl Hx]. apply Forall_inv in Hx.
    rewrite length_app in Hfuel. simpl in Hfuel.
    destruct (differ_line_index0 x Hx) as [c Hc].
    assert (Hstep : trim_loop fuel t (l ++ [x])
                    = if Ascii.eqb c t then trim_loop (fuel - 1) t l
                      else Ok (l ++ [x])).
    { destruct fuel as [| fuel]; [lia |].
      cbn [trim_loop]. rewrite getitem_last_snoc. cbn [mbind result_bind bind].
      rewrite Hc. cbn [mbind result_bind bind].
      rewrite length_app, Nat.add_1_r. cbn [Nat.leb]. rewrite andb_true_r.
      replace (S fuel - 1) with fuel by lia. by rewrite removelast_last. }
    rewrite Hstep. destruct (Ascii.eqb c t) eqn:Hct.
    + apply Ascii.eqb_eq in Hct. subst c.
      specialize (IH (fuel - 1) ltac:(lia) Hl).
      assert (Hxt : has_tag t x = true).
      { rewrite (index0_has_tag _ _ Hc). apply Ascii.eqb_refl. }
      destruct (trim_loop (fuel - 1) t l) as [l' | e].
      * destruct IH as (run & -> & Hrun & Hlast).
        exists (run ++ [x]). split; [by rewrite app_assoc |].
        split; [| done]. apply Forall_app. split; [done | by constructor].
      * destruct IH as [-> Hall]. split; [done |].
        apply Forall_app. split; [done | by constructor].
    + exists []. split; [by rewrite app_nil_r |]. split; [done |].
      exists l, x. split; [done |]. by rewrite (index0_has_tag _ _ Hc).
Qed.

(** X5. On lines as [difflib] writes them, [compare_text] returns the raw
    list less a trailing run of lines that all bear the tag of its last line,
    Annotations included; the list returned is not empty, it ends with a line
    of another tag when something was removed, and it has every Match line of
    the raw list. Otherwise it raises [IndexError], and then all the lines of
    the raw list bear one tag that is not Match. *)
Theorem compare_text_outcome
    (differ_compare : list string -> list string -> list string)
    (string_a string_b : string) (split_car : option string)
    (a b : list string) :
  split string_a split_car = Ok a ->
  split string_b split_car = Ok b ->
  Forall (fun x => differ_line x = true) (differ_compare a b) ->
  match compare_text differ_compare string_a string_b split_car with
  | Ok l =>
      exists run t,
        differ_compare a b = l ++ run /\
        Forall (fun x => has_tag t x = true) run /\
        (exists l0 w, l = l0 ++ [w] /\ (run <> [] -> has_tag t w = false)) /\
        count_tag " " l = count_tag " " (differ_compare a b)
  | Raise e =>
      e = IndexError /\
      exists t, Ascii.eqb t " " = false /\
        Forall (fun x => has_tag t x = true) (differ_compare a b)
  end.
Proof.
  intros Ha Hb Hraw. unfold compare_text.
  rewrite Ha. cbn [mbind result_bind bind]. rewrite Hb.
  cbn [mbind result_bind bind].
  destruct (differ_compare a b) as [| x0 raw0 _] eqn:Hd using rev_ind.
  { split; [done |]. exists "+"%char. by split. }
  rewrite getitem_last_snoc. cbn [mbind result_bind bind].
  pose proof Hraw as Hx. apply Forall_app in Hx as [_ Hx]. apply Forall_inv in Hx.
  destruct (differ_line_index0 _ Hx) as [c Hc]. rewrite Hc.
  cbn [mbind result_bind bind].
  destruct (Ascii.eqb c " ") eqn:Hsp; cbn [negb].
  - exists [], c. rewrite app_nil_r. split; [done |]. split; [done |].
    split; [| done]. by exists raw0, x0.
  - pose proof (trim_loop_outcome c (raw0 ++ [x0]) (length (raw0 ++ [x0]))
                  ltac:(lia) Hraw) as H.
    destruct (trim_loop _ c (raw0 ++ [x0])) as [l | e].
    + destruct H as (run & Heq & Hrun & l0 & w & -> & Hw).
      exists run, c. split; [done |]. split; [done |].
      split; [by exists l0, w |].
      rewrite Heq, (count_tag_app " " (l0 ++ [w]) run),
        (count_tag_run c " " run Hrun Hsp). lia.
    + destruct H as [-> Hall]. split; [done |]. by exists c.
Qed.

Lemma compare_text_outcome_witness :
  match compare_text lcs_differ "the cat" "the dog ran" (Some " ") with
  | Ok l =>
      exists run t,
        lcs_differ ["the"; "cat"] ["the"; "dog"; "ran"] = l ++ run /\
        Forall (fun x => has_tag t x = true) run /\
        (exists l0 w, l = l0 ++ [w] /\ (run <> [] -> has_tag t w = false)) /\
        count_tag " " l
        = count_tag " " (lcs_differ ["the"; "cat"] ["the"; "dog"; "ran"])
  | Raise e =>
      e = IndexError /\
      exists t, Ascii.eqb t " " = false /\
        Forall (fun x => has_tag t x = true)
          (lcs_differ ["the"; "cat"] ["the"; "dog"; "ran"])
  end.
Proof.
  apply (compare_text_outcome lcs_differ "the cat" "the dog ran" (Some " ")
           ["the"; "cat"] ["the"; "dog"; "ran"]).
  - reflexivity.
  - reflexivity.
  - repeat constructor.
Defined.

(** ** avg_length_of_words: the value and its bounds *)

Lemma string_length_append s1 s2 :
  String.length (s1 +:+ s2) = String.length s1 + String.length s2.
Proof. induction s1 as [| c s1 IH]; simpl; [done | by rewrite IH]. Qed.

Lemma prefix_length s1 :
  forall s2, String.prefix s1 s2 = true -> String.length s1 <= String.length s2.
Proof.
  induction s1 as [| a s1 IH]; intros s2; [simpl; lia |].
  destruct s2 as [| b s2]; [done |]. rewrite prefix_cons.
  destruct (ascii_dec a b); [| done]. intros H%IH. simpl. lia.
Qed.

(** The characters of a string are those of its pieces and of the separators
    between them. *)
Lemma split_on_lengths sep :
  sep <> "" ->
  forall s skip cur,
    skip <= String.length s ->
    sum_len (split_on sep s skip cur)
    + (length (split_on sep s skip cur) - 1) * String.length sep + skip
    = String.length cur + String.length s.
Proof.
  intros Hsep. induction s as [| c s IH]; intros skip cur Hskip.
  - simpl in *. lia.
  - destruct skip as [| k].
    + cbn [split_on]. destruct (String.prefix sep (String c s)) eqn:Hpre.
      * apply prefix_length in Hpre. simpl in Hpre.
        assert (HL : 1 <= String.length sep) by (destruct sep; [done | simpl; lia]).
        specialize (IH (String.length sep - 1) "" ltac:(lia)).
        pose proof (split_on_nonempty sep s (String.length sep - 1) "") as Hne.
        destruct (split_on sep s (String.length sep - 1) "") as [| x r];
          [done |].
        cbn [sum_len foldr length] in *. simpl String.length in *. nia.
      * specialize (IH 0 (cur +:+ String c "") ltac:(lia)).
        rewrite string_length_append in IH. simpl in *. lia.
    + cbn [split_on]. specialize (IH k cur ltac:(simpl in Hskip; lia)).
      simpl. lia.
Qed.

Lemma split_ws_lengths :
  forall s cur,
    sum_len (split_ws s cur) <= String.length cur + String.length s.
Proof.
  induction s as [| c s IH]; intros cur; cbn [split_ws].
  - destruct (String.eqb cur ""); simpl; lia.
  - destruct (is_space c).
    + specialize (IH ""). destruct (String.eqb cur ""); simpl in *; lia.
    + specialize (IH (cur +:+ String c "")).
      rewrite string_length_append in IH. simpl in *. lia.
Qed.

(** X6. Under a separator that is a non-empty string, the string has
    [n >= 1] words, the characters of the words are those of the string less
    the [n - 1] separators, and [avg_length_of_words] returns their number
    divided by [n]. *)
Theorem avg_length_of_words_value (s sep : string) :
  sep <> "" ->
  exists words,
    split s (Some sep) = Ok words /\
    words <> [] /\
    sum_len words + (length words - 1) * String.length sep = String.length s /\
    avg_length_of_words s (Some sep)
    = Ok (Qmake (Z.of_nat (sum_len words)) (Pos.of_nat (length words))).
Proof.
  intros Hsep. exists (split_on sep s 0 "").
  pose proof (split_on_nonempty sep s 0 "") as Hne.
  pose proof (split_on_lengths sep Hsep s 0 "" ltac:(lia)) as Hlen.
  split; [by destruct sep |]. split; [done |]. split; [simpl in Hlen; lia |].
  unfold avg_length_of_words.
  replace (split s (Some sep)) with (Ok (split_on sep s 0 "")) by by destruct sep.
  cbn [mbind result_bind bind].
  destruct (split_on sep s 0 "") as [| x r]; [done |]. reflexivity.
Qed.

Lemma avg_length_of_words_value_witness :
  exists words,
    split "the cat sat" (Some " ") = Ok words /\
    words <> [] /\
    sum_len words + (length words - 1) * String.length " "
    = String.length "the cat sat" /\
    avg_length_of_words "the cat sat" (Some " ")
    = Ok (Qmake (Z.of_nat (sum_len words)) (Pos.of_nat (length words))).
Proof.
  apply (avg_length_of_words_value "the cat sat" " "). discriminate.
Defined.

(** X7. Whatever the string and the separator, [avg_length_of_words] either
    returns a value between 0 and the length of the string, or raises the
    [ValueError] of an empty separator. *)
Theorem avg_length_of_words_bounds (s : string) (sep : option string) :
  match avg_length_of_words s sep with
  | Ok q => (0 <= q)%Q /\ (q <= inject_Z (Z.of_nat (String.length s)))%Q
  | Raise e => e = ValueError /\ sep = Some ""
  end.
Proof.
  unfold avg_length_of_words.
  assert (Hwords : forall words,
            sum_len words <= String.length s ->
            match (if length words =? 0 then Ok 0%Q
                   else truediv (sum_len words) (length words)) with
            | Ok q => (0 <= q)%Q /\ (q <= inject_Z (Z.of_nat (String.length s)))%Q
            | Raise e => e = ValueError /\ sep = Some ""
            end).
  { intros words Hsum. destruct (length words) as [| n] eqn:Hn.
    - simpl. unfold Qle. simpl. lia.
    - simpl. unfold Qle. simpl. split; [lia |].
      pose proof (Pos2Z.is_pos (Pos.of_nat (S n))). nia. }
  destruct sep as [[| c sp] |]; cbn [split mbind result_bind bind].
  - done.
  - apply Hwords.
    pose proof (split_on_lengths (String c sp) ltac:(done) s 0 "" ltac:(lia)) as H.
    simpl in H. nia.
  - apply Hwords. pose proof (split_ws_lengths s "") as H. simpl in H. lia.
Qed.

(** ** Dataset.preprocess_data: cell by cell *)

Lemma for_each_ok {A} (l : list A) : for_each (fun x => Ok x) l = Ok l.
Proof. induction l as [| x l IH]; simpl; [done | by rewrite IH]. Qed.

Lemma for_each_ext {A B} (g h : A -> result B) l :
  (forall x, g x = h x) -> for_each g l = for_each h l.
Proof.
  intros Hgh. induction l as [| x l IH]; simpl; [done |].
  by rewrite Hgh, IH.
Qed.

(** Two passes in a row, of which the first returns, are one pass of the
    composed function. *)
Lemma for_each_fuse {A B C} (g : A -> result B) (h : B -> result C) l l1 :
  for_each g l = Ok l1 ->
  for_each (fun x => y ← g x; h y) l = for_each h l1.
Proof.
  revert l1. induction l as [| x l IH]; intros l1; simpl.
  - by intros [= <-].
  - destruct (g x) as [y |]; simpl; [| discriminate].
    destruct (for_each g l) as [l' |]; simpl; [| discriminate].
    intros [= <-]. simpl. by rewrite (IH l' eq_refl).
Qed.

(** One pass of a composed function that returns is two passes that
    return. *)
Lemma for_each_split {A B C} (g : A -> result B) (h : B -> result C) l l2 :
  for_each (fun x => y ← g x; h y) l = Ok l2 ->
  exists l1, for_each g l = Ok l1 /\ for_each h l1 = Ok l2.
Proof.
  revert l2. induction l as [| x l IH]; intros l2; simpl.
  - intros [= <-]. by exists [].
  - destruct (g x) as [y |]; simpl; [| discriminate].
    destruct (h y) as [z |] eqn:Hz; simpl; [| discriminate].
    destruct (for_each (fun x => y ← g x; h y) l) as [l' |]; simpl;
      [| discriminate].
    intros [= <-]. destruct (IH l' eq_refl) as (l1 & -> & Hl1).
    exists (y :: l1). simpl. by rewrite Hz, Hl1.
Qed.

Lemma applymap_ok {A} (f : list (string * list A)) :
  applymap (fun x => Ok x) f = Ok f.
Proof.
  unfold applymap. induction f as [| [c col] f IH]; simpl; [done |].
  by rewrite for_each_ok, IH.
Qed.

Lemma applymap_fuse {A B C} (g : A -> result B) (h : B -> result C) f :
  forall f1,
    applymap g f = Ok f1 ->
    applymap (fun x => y ← g x; h y) f = applymap h f1.
Proof.
  unfold applymap. induction f as [| [c col] f IH]; intros f1; simpl.
  - by intros [= <-].
  - destruct (for_each g col) as [col1 |] eqn:Hcol; simpl; [| discriminate].
    destruct (for_each _ f) as [f' |]; simpl; [| discriminate].
    intros [= <-]. simpl.
    by rewrite (for_each_fuse g h col col1 Hcol), (IH f' eq_refl).
Qed.

Lemma applymap_split {A B C} (g : A -> result B) (h : B -> result C) f :
  forall f2,
    applymap (fun x => y ← g x; h y) f = Ok f2 ->
    exists f1, applymap g f = Ok f1 /\ applymap h f1 = Ok f2.
Proof.
  unfold applymap. induction f as [| [c col] f IH]; intros f2; simpl.
  - intros [= <-]. by exists [].
  - destruct (for_each (fun x => y ← g x; h y) col) as [col2 |] eqn:Hcol; simpl;
      [| discriminate].
    destruct (for_each _ f) as [f' |]; simpl; [| discriminate].
    intros [= <-].
    destruct (for_each_split g h col col2 Hcol) as (col1 & Hg & Hh).
    destruct (IH f' eq_refl) as (f1 & Hf1 & Hf2).
    exists ((c, col1) :: f1). simpl. rewrite Hg. simpl. rewrite Hf1. simpl.
    split; [done |]. by rewrite Hh, Hf2.
Qed.

Lemma fillna_cells v (f : frame) :
  fillna v f = map (fun '(c, col) => (c, map (fill_cell v) col)) f.
Proof. reflexivity. Qed.

(** A pass that only runs, followed by the filling, is one pass. *)
Lemma for_each_run_then_fill (k : cell -> result cell) v col :
  (_ ← for_each k col; Ok (map (fill_cell v) col))
  = for_each (fun x => _ ← k x; Ok (fill_cell v x)) col.
Proof.
  induction col as [| x col IH]; simpl; [done |].
  destruct (k x) as [y |]; simpl; [| done].
  rewrite <- IH. by destruct (for_each k col).
Qed.

Lemma applymap_run_then_fill (k : cell -> result cell) v (f : frame) :
  (_ ← applymap k f; Ok (fillna v f))
  = applymap (fun x => _ ← k x; Ok (fill_cell v x)) f.
Proof.
  unfold applymap. rewrite fillna_cells.
  induction f as [| [c col] f IH]; simpl; [done |].
  rewrite <- for_each_run_then_fill.
  destruct (for_each k col) as [col' |]; simpl; [| done].
  rewrite <- IH.
  by destruct (for_each (fun '(c, col) => col' ← for_each k col; Ok (c, col')) f).
Qed.

Lemma step_applymap enabled g (f : frame) :
  step enabled g f = applymap (fun x => if enabled then g x else Ok x) f.
Proof. destruct enabled; simpl; [done | by rewrite applymap_ok]. Qed.

(** The frame passes of [preprocess_data] return exactly when the one pass
    of the cell pipeline does, and with the same frame. *)
Lemma processed_columns_cellwise num2words literal_eval
    lowercase punctuation_free convert_num2words asr_string_recomposition sel f :
  processed_columns num2words literal_eval lowercase punctuation_free
    convert_num2words asr_string_recomposition sel = Ok f
  <-> applymap (normalise_cell num2words literal_eval lowercase punctuation_free
                  convert_num2words asr_string_recomposition) sel = Ok f.
Proof.
  unfold processed_columns, normalise_cell.
  set (t := maketrans punctuation (repeat_char " " (String.length punctuation))).
  set (g1 := fun x : cell =>
               if asr_string_recomposition
               then parsed ← literal_eval x; join_texts parsed else Ok x).
  set (g2 := fun x : cell => if lowercase then lower_cell x else Ok x).
  set (g3 := fun x : cell =>
               if convert_num2words then converter num2words x else Ok x).
  set (g4 := fun x : cell =>
               _ ← (if punctuation_free then remove_punctuation x t else Ok x);
               Ok (fill_cell " " x)).
  assert (H1 : forall f1,
            (if asr_string_recomposition
             then parsed ← applymap literal_eval sel; applymap join_texts parsed
             else Ok sel) = Ok f1
            <-> applymap g1 sel = Ok f1).
  { intros f1. subst g1. destruct asr_string_recomposition.
    - split.
      + destruct (applymap literal_eval sel) as [parsed |] eqn:Hp; simpl;
          [| discriminate].
        intros Hj. by rewrite (applymap_fuse _ _ _ _ Hp).
      + intros (parsed & Hp & Hj)%applymap_split. by rewrite Hp.
    - by rewrite applymap_ok. }
  assert (H4 : forall f3,
            (_ ← step punctuation_free (fun x => remove_punctuation x t) f3;
             Ok (fillna " " f3)) = applymap g4 f3).
  { intros f3. rewrite step_applymap. apply applymap_run_then_fill. }
  change (applymap _ sel = Ok f)
    with (applymap (fun x => x1 ← g1 x; x2 ← g2 x1; x3 ← g3 x2; g4 x3) sel = Ok f).
  split.
  - destruct (if asr_string_recomposition then _ else _) as [f1 |];
      cbn [mbind result_bind bind]; [| discriminate].
    pose proof (proj1 (H1 f1) eq_refl) as Hf1. rewrite step_applymap. fold g2.
    destruct (applymap g2 f1) as [f2 |] eqn:Hf2; cbn [mbind result_bind bind];
      [| discriminate].
    rewrite step_applymap. fold g3.
    destruct (applymap g3 f2) as [f3 |] eqn:Hf3; cbn [mbind result_bind bind];
      [| discriminate].
    rewrite H4. intros Hf4.
    rewrite (applymap_fuse _ _ _ _ Hf1), (applymap_fuse _ _ _ _ Hf2).
    by rewrite (applymap_fuse _ _ _ _ Hf3).
  - intros (f1 & Hf1 & (f2 & Hf2 & (f3 & Hf3 & Hf4)%applymap_split)%applymap_split)%applymap_split.
    apply H1 in Hf1.
    match goal with
    | |- mbind _ ?m = _ =>
        replace m with (Ok f1 : result frame) by (symmetry; exact Hf1)
    end.
    cbn [mbind result_bind bind].
    rewrite step_applymap. fold g2. rewrite Hf2. cbn [mbind result_bind bind].
    rewrite step_applymap. fold g3. rewrite Hf3. cbn [mbind result_bind bind].
    by rewrite H4.
Qed.

Lemma for_each_lookup {A B} (g : A -> result B) l :
  forall l',
    for_each g l = Ok l' ->
    length l' = length l /\
    forall r x, l !! r = Some x -> exists y, l' !! r = Some y /\ g x = Ok y.
Proof.
  induction l as [| x0 l IH]; intros l'; simpl.
  - intros [= <-]. split; [done |]. intros r x. by rewrite lookup_nil.
  - destruct (g x0) as [y0 |] eqn:Hy0; simpl; [| discriminate].
    destruct (for_each g l) as [l1 |]; simpl; [| discriminate].
    intros [= <-]. destruct (IH l1 eq_refl) as [Hlen Hcells].
    split; [simpl; by rewrite Hlen |].
    intros [| r] x; simpl; [intros [= <-]; by exists y0 | apply Hcells].
Qed.

Lemma select_two (d : frame) p a :
  select d [p; a]
  = (colp ← get_column d p; cola ← get_column d a; Ok [(p, colp); (a, cola)]).
Proof.
  unfold select. simpl.
  destruct (get_column d p); simpl; [| done]. by destruct (get_column d a).
Qed.

Lemma applymap_two {A B} (g : A -> result B) p a (colp cola : list A) :
  applymap g [(p, colp); (a, cola)]
  = (colp' ← for_each g colp; cola' ← for_each g cola;
     Ok [(p, colp'); (a, cola')]).
Proof.
  unfold applymap. simpl.
  destruct (for_each g colp); simpl; [| done]. by destruct (for_each g cola).
Qed.

(** X8. Rows and cells do not interact. [preprocess_data] returns exactly
    when both columns exist and the cell pipeline returns on every selected
    cell, and the frame it returns, or assigns in place, holds at every place
    the value of the pipeline on the cell that was there. When it raises,
    either the selection did, or the pipeline raises on some cell. *)
Theorem preprocess_data_cellwise
    (num2words : string -> reading -> result string)
    (literal_eval : cell -> result pyval) (self : Dataset)
    (lowercase punctuation_free convert_num2words asr_string_recomposition
     inplace : bool) (h : heap) (d : frame) :
  h !! data self = Some d ->
  let columns := [prompt_col self; asr_col self] in
  let pipeline :=
    normalise_cell num2words literal_eval lowercase punctuation_free
      convert_num2words asr_string_recomposition in
  match preprocess_data num2words literal_eval self lowercase punctuation_free
          convert_num2words asr_string_recomposition inplace h with
  | (Ok ret, h') =>
      exists sel f,
        select d columns = Ok sel /\
        applymap pipeline sel = Ok f /\
        if inplace then
          ret = None /\ h' !! data self = Some (setitem_columns d columns f)
        else
          exists df, ret = Some df /\ h' !! df = Some f
  | (Raise e, h') =>
      select d columns = Raise e \/
      exists sel e', select d columns = Ok sel /\ applymap pipeline sel = Raise e'
  end.
Proof.
  intros Hd columns pipeline.
  pose proof (preprocess_data_outcome num2words literal_eval self lowercase
                punctuation_free convert_num2words asr_string_recomposition
                inplace h d Hd) as H.
  unfold post in H. fold columns in H.
  destruct (preprocess_data _ _ _ _ _ _ _ _ _) as [[ret | e] h'].
  - destruct H as (f & Hf & H).
    destruct (select d columns) as [sel |]; [| discriminate].
    cbn [mbind result_bind bind] in Hf.
    apply processed_columns_cellwise in Hf.
    exists sel, f. split; [done |]. split; [done |].
    destruct inplace.
    + by destruct H as (-> & Hself & _).
    + destruct H as (df & -> & _ & Hdf & _). by exists df.
  - destruct H as [Hf _].
    destruct (select d columns) as [sel |]; [| by left].
    cbn [mbind result_bind bind] in Hf. right. exists sel.
    destruct (applymap pipeline sel) as [f |] eqn:Hp; [| by eexists].
    apply processed_columns_cellwise in Hp. congruence.
Qed.

Lemma preprocess_data_cellwise_witness :
  let d := one_row "Hello, World!!" "in 1997" in
  let h := one_row_heap "Hello, World!!" "in 1997" in
  let columns := [prompt_col one_row_self; asr_col one_row_self] in
  let pipeline := normalise_cell tagged_reading no_literal true true true false in
  match preprocess_data tagged_reading no_literal one_row_self
          true true true false false h with
  | (Ok ret, h') =>
      exists sel f,
        select d columns = Ok sel /\
        applymap pipeline sel = Ok f /\
        exists df, ret = Some df /\ h' !! df = Some f
  | (Raise e, h') =>
      select d columns = Raise e \/
      exists sel e', select d columns = Ok sel /\ applymap pipeline sel = Raise e'
  end.
Proof.
  apply (preprocess_data_cellwise tagged_reading no_literal one_row_self
           true true true false false
           (one_row_heap "Hello, World!!" "in 1997")
           (one_row "Hello, World!!" "in 1997")).
  reflexivity.
Defined.

(** The same, column by column. *)
Lemma preprocess_data_columns
    (num2words : string -> reading -> result string)
    (literal_eval : cell -> result pyval) (self : Dataset)
    (lowercase punctuation_free convert_num2words asr_string_recomposition
     inplace : bool) (h : heap) (d : frame) :
  h !! data self = Some d ->
  let p := prompt_col self in
  let a := asr_col self in
  let pipeline :=
    normalise_cell num2words literal_eval lowercase punctuation_free
      convert_num2words asr_string_recomposition in
  match preprocess_data num2words literal_eval self lowercase punctuation_free
          convert_num2words asr_string_recomposition inplace h with
  | (Ok ret, h') =>
      exists colp cola colp' cola',
        get_column d p = Ok colp /\ get_column d a = Ok cola /\
        for_each pipeline colp = Ok colp' /\
        for_each pipeline cola = Ok cola' /\
        if inplace then
          ret = None /\
          h' !! data self
          = Some (setitem_columns d [p; a] [(p, colp'); (a, cola')])
        else
          exists df, ret = Some df /\ (df ∉ dom h) /\
            h' !! df = Some [(p, colp'); (a, cola')]
  | (Raise e, h') =>
      forall colp cola colp' cola',
        get_column d p = Ok colp -> get_column d a = Ok cola ->
        for_each pipeline colp = Ok colp' ->
        for_each pipeline cola = Ok cola' -> False
  end.
Proof.
  intros Hd p a pipeline.
  pose proof (preprocess_data_outcome num2words literal_eval self lowercase
                punctuation_free convert_num2words asr_string_recomposition
                inplace h d Hd) as H.
  unfold post in H. fold p a in H. rewrite select_two in H.
  destruct (preprocess_data _ _ _ _ _ _ _ _ _) as [[ret | e] h'].
  - destruct H as (f & Hf & H).
    destruct (get_column d p) as [colp |] eqn:Hp; [| discriminate].
    destruct (get_column d a) as [cola |] eqn:Ha; [| discriminate].
    cbn [mbind result_bind bind] in Hf.
    apply processed_columns_cellwise in Hf. fold pipeline in Hf.
    pose proof (eq_trans (eq_sym (applymap_two pipeline p a colp cola)) Hf)
      as Hf2. clear Hf. rename Hf2 into Hf.
    destruct (for_each pipeline colp) as [colp' |] eqn:Hp'; [| discriminate].
    destruct (for_each pipeline cola) as [cola' |] eqn:Ha'; [| discriminate].
    injection Hf as <-.
    exists colp, cola, colp', cola'. do 4 (split; [done |]).
    destruct inplace.
    + by destruct H as (-> & Hself & _).
    + destruct H as (df & -> & Hfresh & Hdf & _). by exists df.
  - destruct H as [Hf _]. intros colp cola colp' cola' Hp Ha Hp' Ha'.
    rewrite Hp, Ha in Hf. cbn [mbind result_bind bind] in Hf.
    assert (Hok : applymap pipeline [(p, colp); (a, cola)]
                  = Ok [(p, colp'); (a, cola')]).
    { refine (eq_trans (applymap_two pipeline p a colp cola) _).
      by rewrite Hp', Ha'. }
    apply processed_columns_cellwise in Hok. congruence.
Qed.

Lemma normalise_cell_filled num2words literal_eval lc pf cv asr x y :
  normalise_cell num2words literal_eval lc pf cv asr x = Ok y -> y <> CNaN.
Proof.
  unfold normalise_cell.
  destruct (if asr then _ else _) as [x1 |]; cbn [mbind result_bind bind];
    [| discriminate].
  destruct (if lc then _ else _) as [x2 |]; cbn [mbind result_bind bind];
    [| discriminate].
  destruct (if cv then _ else _) as [x3 |]; cbn [mbind result_bind bind];
    [| discriminate].
  destruct (if pf then _ else _) as [x4 |]; cbn [mbind result_bind bind];
    [| discriminate].
  intros [= <-]. by destruct x3.
Qed.

Lemma for_each_Forall {A B} (g : A -> result B) (P : B -> Prop) l :
  (forall x y, g x = Ok y -> P y) ->
  forall l', for_each g l = Ok l' -> Forall P l'.
Proof.
  intros HP. induction l as [| x l IH]; intros l'; simpl.
  - intros [= <-]. constructor.
  - destruct (g x) as [y |] eqn:Hy; simpl; [| discriminate].
    destruct (for_each g l) as [l1 |]; simpl; [| discriminate].
    intros [= <-]. constructor; [by eapply HP | by apply IH].
Qed.

(** X9. The frame [preprocess_data] returns has the prompt column and the
    transcript column of the data, in this order and under their labels,
    with as many rows as they had, and no missing value. *)
Theorem preprocess_data_returns_filled_columns
    (num2words : string -> reading -> result string)
    (literal_eval : cell -> result pyval) (self : Dataset)
    (lowercase punctuation_free convert_num2words asr_string_recomposition : bool)
    (h : heap) (d : frame) :
  h !! data self = Some d ->
  match preprocess_data num2words literal_eval self lowercase punctuation_free
          convert_num2words asr_string_recomposition false h with
  | (Ok ret, h') =>
      exists df colp cola colp' cola',
        ret = Some df /\
        get_column d (prompt_col self) = Ok colp /\
        get_column d (asr_col self) = Ok cola /\
        h' !! df = Some [(prompt_col self, colp'); (asr_col self, cola')] /\
        length colp' = length colp /\ length cola' = length cola /\
        Forall (fun x => x <> CNaN) colp' /\ Forall (fun x => x <> CNaN) cola'
  | (Raise e, h') => True
  end.
Proof.
  intros Hd.
  pose proof (preprocess_data_columns num2words literal_eval self lowercase
                punctuation_free convert_num2words asr_string_recomposition
                false h d Hd) as H.
  cbv zeta in H.
  destruct (preprocess_data _ _ _ _ _ _ _ _ _) as [[ret | e] h']; [| done].
  destruct H as (colp & cola & colp' & cola' & Hp & Ha & Hp' & Ha' & df & -> & _ & Hdf).
  exists df, colp, cola, colp', cola'. do 4 (split; [done |]).
  split; [apply (for_each_lookup _ _ _ Hp') |].
  split; [apply (for_each_lookup _ _ _ Ha') |].
  split; eapply for_each_Forall; try eassumption;
    intros x y; apply normalise_cell_filled.
Qed.

Lemma preprocess_data_returns_filled_columns_witness :
  match preprocess_data tagged_reading no_literal one_row_self
          false false false false false
          (<[2%positive := [("prompt", [CNaN; CStr "A b"]);
                            ("asr_transcript", [CStr "a B"; CNaN])]]> ∅) with
  | (Ok ret, h') =>
      exists df colp cola colp' cola',
        ret = Some df /\
        get_column [("prompt", [CNaN; CStr "A b"]);
                    ("asr_transcript", [CStr "a B"; CNaN])]
          (prompt_col one_row_self) = Ok colp /\
        get_column [("prompt", [CNaN; CStr "A b"]);
                    ("asr_transcript", [CStr "a B"; CNaN])]
          (asr_col one_row_self) = Ok cola /\
        h' !! df = Some [(prompt_col one_row_self, colp');
                         (asr_col one_row_self, cola')] /\
        length colp' = length colp /\ length cola' = length cola /\
        Forall (fun x => x <> CNaN) colp' /\ Forall (fun x => x <> CNaN) cola'
  | (Raise e, h') => True
  end.
Proof.
  apply (preprocess_data_returns_filled_columns tagged_reading no_literal
           one_row_self false false false false
           (<[2%positive := [("prompt", [CNaN; CStr "A b"]);
                             ("asr_transcript", [CStr "a B"; CNaN])]]> ∅)
           [("prompt", [CNaN; CStr "A b"]);
            ("asr_transcript", [CStr "a B"; CNaN])]).
  reflexivity.
Defined.

(** ** Dataset.preprocess_data: missing values, missing columns *)







Lemma normalise_cell_nan num2words literal_eval pf cv :
  normalise_cell num2words literal_eval true pf cv false CNaN = Ok (CStr "nan").
Proof. by destruct pf, cv. Qed.

(** X11. With lowercase on and the recomposition off, a missing value of a
    selected column comes out as the text "nan": [str] has made a string of
    it before [fillna] runs, so the fill value is never used. *)
Theorem preprocess_data_missing_value_is_nan
    (num2words : string -> reading -> result string)
    (literal_eval : cell -> result pyval) (self : Dataset)
    (punctuation_free convert_num2words : bool) (h : heap) (d : frame) :
  h !! data self = Some d ->
  match preprocess_data num2words literal_eval self true punctuation_free
          convert_num2words false false h with
  | (Ok ret, h') =>
      exists df colp cola colp' cola',
        ret = Some df /\
        get_column d (prompt_col self) = Ok colp /\
        get_column d (asr_col self) = Ok cola /\
        h' !! df = Some [(prompt_col self, colp'); (asr_col self, cola')] /\
        forall r,
          (colp !! r = Some CNaN -> colp' !! r = Some (CStr "nan")) /\
          (cola !! r = Some CNaN -> cola' !! r = Some (CStr "nan"))
  | (Raise e, h') => True
  end.
Proof.
  intros Hd.
  pose proof (preprocess_data_columns num2words literal_eval self true
                punctuation_free convert_num2words false false h d Hd) as H.
  cbv zeta in H.
  destruct (preprocess_data _ _ _ _ _ _ _ _ _) as [[ret | e] h']; [| done].
  destruct H as (colp & cola & colp' & cola' & Hp & Ha & Hp' & Ha' & df & -> & _ & Hdf).
  exists df, colp, cola, colp', cola'. do 4 (split; [done |]).
  intros r. split; intros Hr.
  - destruct (proj2 (for_each_lookup _ _ _ Hp') r CNaN Hr) as (y & Hy & Hcell).
    rewrite normalise_cell_nan in Hcell. injection Hcell as <-. exact Hy.
  - destruct (proj2 (for_each_lookup _ _ _ Ha') r CNaN Hr) as (y & Hy & Hcell).
    rewrite normalise_cell_nan in Hcell. injection Hcell as <-. exact Hy.
Qed.

Lemma preprocess_data_missing_value_is_nan_witness :
  match preprocess_data tagged_reading no_literal one_row_self true true true
          false false
          (<[2%positive := [("prompt", [CStr "A b"; CNaN]);
                            ("asr_transcript", [CNaN; CStr "a"])]]> ∅) with
  | (Ok ret, h') =>
      exists df colp cola colp' cola',
        ret = Some df /\
        get_column [("prompt", [CStr "A b"; CNaN]);
                    ("asr_transcript", [CNaN; CStr "a"])]
          (prompt_col one_row_self) = Ok colp /\
        get_column [("prompt", [CStr "A b"; CNaN]);
                    ("asr_transcript", [CNaN; CStr "a"])]
          (asr_col one_row_self) = Ok cola /\
        h' !! df = Some [(prompt_col one_row_self, colp');
                         (asr_col one_row_self, cola')] /\
        forall r,
          (colp !! r = Some CNaN -> colp' !! r = Some (CStr "nan")) /\
          (cola !! r = Some CNaN -> cola' !! r = Some (CStr "nan"))
  | (Raise e, h') => True
  end.
Proof.
  apply (preprocess_data_missing_value_is_nan tagged_reading no_literal
           one_row_self true true
           (<[2%positive := [("prompt", [CStr "A b"; CNaN]);
                             ("asr_transcript", [CNaN; CStr "a"])]]> ∅)
           [("prompt", [CStr "A b"; CNaN]);
            ("asr_transcript", [CNaN; CStr "a"])]).
  reflexivity.
Defined.

Lemma normalise_cell_nan_raises num2words literal_eval pf cv :
  pf || cv = true ->
  exists e, normalise_cell num2words literal_eval false pf cv false CNaN = Raise e.
Proof. destruct pf, cv; try done; intros _; by eexists. Qed.

(** X12. With lowercase and the recomposition off, a missing value in one of
    the two columns makes [preprocess_data] raise as soon as the number step
    or the punctuation step is on, the punctuation step although its result
    is dropped. *)
Theorem preprocess_data_missing_value_raises
    (num2words : string -> reading -> result string)
    (literal_eval : cell -> result pyval) (self : Dataset)
    (punctuation_free convert_num2words inplace : bool)
    (h : heap) (d : frame) (colp cola : column) (r : nat) :
  h !! data self = Some d ->
  get_column d (prompt_col self) = Ok colp ->
  get_column d (asr_col self) = Ok cola ->
  colp !! r = Some CNaN \/ cola !! r = Some CNaN ->
  punctuation_free || convert_num2words = true ->
  exists e h',
    preprocess_data num2words literal_eval self false punctuation_free
      convert_num2words false inplace h = (Raise e, h').
Proof.
  intros Hd Hp Ha Hnan Hon.
  pose proof (preprocess_data_columns num2words literal_eval self false
                punctuation_free convert_num2words false inplace h d Hd) as H.
  cbv zeta in H.
  destruct (preprocess_data _ _ _ _ _ _ _ _ _) as [[ret | e] h'];
    [| by eexists _, _].
  exfalso.
  destruct H as (colp0 & cola0 & colp' & cola' & Hp0 & Ha0 & Hp' & Ha' & _).
  rewrite Hp in Hp0. injection Hp0 as <-.
  rewrite Ha in Ha0. injection Ha0 as <-.
  destruct (normalise_cell_nan_raises num2words literal_eval _ _ Hon) as [e He].
  destruct Hnan as [Hr | Hr].
  - destruct (proj2 (for_each_lookup _ _ _ Hp') r CNaN Hr) as (y & _ & Hcell).
    congruence.
  - destruct (proj2 (for_each_lookup _ _ _ Ha') r CNaN Hr) as (y & _ & Hcell).
    congruence.
Qed.

Lemma preprocess_data_missing_value_raises_witness :
  exists e h',
    preprocess_data tagged_reading no_literal one_row_self false true false
      false false
      (<[2%positive := [("prompt", [CStr "A b"; CNaN]);
                        ("asr_transcript", [CStr "a"; CStr "b"])]]> ∅)
    = (Raise e, h').
Proof.
  apply (preprocess_data_missing_value_raises tagged_reading no_literal
           one_row_self true false false
           (<[2%positive := [("prompt", [CStr "A b"; CNaN]);
                             ("asr_transcript", [CStr "a"; CStr "b"])]]> ∅)
           [("prompt", [CStr "A b"; CNaN]);
            ("asr_transcript", [CStr "a"; CStr "b"])]
           [CStr "A b"; CNaN] [CStr "a"; CStr "b"] 1).
  - reflexivity.
  - reflexivity.
  - reflexivity.
  - left. reflexivity.
  - reflexivity.
Defined.

Lemma for_each_pure {A B} (g : A -> B) l :
  for_each (fun x => Ok (g x)) l = Ok (map g l).
Proof. induction l as [| x l IH]; simpl; [done | by rewrite IH]. Qed.

(** X13. With every option off, [preprocess_data] returns the two columns as
    they are but for the missing values, which are replaced by one blank. *)
Theorem preprocess_data_all_off
    (num2words : string -> reading -> result string)
    (literal_eval : cell -> result pyval) (self : Dataset)
    (h : heap) (d : frame) (colp cola : column) :
  h !! data self = Some d ->
  get_column d (prompt_col self) = Ok colp ->
  get_column d (asr_col self) = Ok cola ->
  exists df h',
    preprocess_data num2words literal_eval self false false false false false h
    = (Ok (Some df), h') /\
    h' !! df = Some [(prompt_col self, map (fill_cell " ") colp);
                     (asr_col self, map (fill_cell " ") cola)].
Proof.
  intros Hd Hp Ha.
  pose proof (preprocess_data_columns num2words literal_eval self false
                false false false false h d Hd) as H.
  cbv zeta in H.
  assert (Hcells : forall col,
            for_each (normalise_cell num2words literal_eval false false false false)
              col = Ok (map (fill_cell " ") col)).
  { intros col. apply (for_each_pure (fill_cell " ")). }
  destruct (preprocess_data _ _ _ _ _ _ _ _ _) as [[ret | e] h'].
  - destruct H as (colp0 & cola0 & colp' & cola' & Hp0 & Ha0 & Hp' & Ha' & df & -> & _ & Hdf).
    rewrite Hp in Hp0. injection Hp0 as <-.
    rewrite Ha in Ha0. injection Ha0 as <-.
    rewrite Hcells in Hp', Ha'. injection Hp' as <-. injection Ha' as <-.
    by exists df, h'.
  - exfalso. exact (H colp cola _ _ Hp Ha (Hcells colp) (Hcells cola)).
Qed.

Lemma preprocess_data_all_off_witness :
  exists df h',
    preprocess_data tagged_reading no_literal one_row_self false false false
      false false
      (<[2%positive := [("prompt", [CStr "A, b"; CNaN]);
                        ("asr_transcript", [CStr "a 1"; CStr "b"])]]> ∅)
    = (Ok (Some df), h') /\
    h' !! df
    = Some [(prompt_col one_row_self, map (fill_cell " ") [CStr "A, b"; CNaN]);
            (asr_col one_row_self, map (fill_cell " ") [CStr "a 1"; CStr "b"])].
Proof.
  apply (preprocess_data_all_off tagged_reading no_literal one_row_self
           (<[2%positive := [("prompt", [CStr "A, b"; CNaN]);
                             ("asr_transcript", [CStr "a 1"; CStr "b"])]]> ∅)
           [("prompt", [CStr "A, b"; CNaN]);
            ("asr_transcript", [CStr "a 1"; CStr "b"])]).
  - reflexivity.
  - reflexivity.
  - reflexivity.
Defined.

Lemma get_column_exn (d : frame) c e :
  get_column d c = Raise e -> e = KeyError.
Proof.
  induction d as [| [c' col] d IH]; simpl; [by intros [= <-] |].
  destruct (String.eqb c' c); [discriminate | done].
Qed.

(** X14. When the prompt column or the transcript column is not in
    [self.data], [preprocess_data] raises [KeyError] whatever the options,
    and no frame is made or changed. *)
Theorem preprocess_data_missing_column
    (num2words : string -> reading -> result string)
    (literal_eval : cell -> result pyval) (self : Dataset)
    (lowercase punctuation_free convert_num2words asr_string_recomposition
     inplace : bool) (h : heap) (d : frame) :
  h !! data self = Some d ->
  (forall col, get_column d (prompt_col self) <> Ok col) \/
  (forall col, get_column d (asr_col self) <> Ok col) ->
  preprocess_data num2words literal_eval self lowercase punctuation_free
    convert_num2words asr_string_recomposition inplace h
  = (Raise KeyError, h).
Proof.
  intros Hd Hmissing. unfold preprocess_data.
  assert (Hsel : select d [prompt_col self; asr_col self] = Raise KeyError).
  { rewrite select_two.
    destruct (get_column d (prompt_col self)) as [colp | e] eqn:Hp.
    - destruct (get_column d (asr_col self)) as [cola | e] eqn:Ha.
      + destruct Hmissing as [H | H]; [by destruct (H colp) | by destruct (H cola)].
      + cbn [mbind result_bind bind]. by rewrite (get_column_exn _ _ _ Ha).
    - cbn [mbind result_bind bind]. by rewrite (get_column_exn _ _ _ Hp). }
  unfold mbind at 1, heapM_bind at 1. unfold read_frame at 1.
  rewrite (lookup_total_correct _ _ _ Hd).
  unfold mbind at 1, heapM_bind at 1. unfold lift at 1. by rewrite Hsel.
Qed.

Lemma preprocess_data_missing_column_witness :
  preprocess_data tagged_reading no_literal one_row_self true true true false
    true (<[2%positive := [("prompt", [CStr "a"])]]> ∅)
  = (Raise KeyError, <[2%positive := [("prompt", [CStr "a"])]]> ∅).
Proof.
  apply (preprocess_data_missing_column tagged_reading no_literal one_row_self
           true true true false true
           (<[2%positive := [("prompt", [CStr "a"])]]> ∅)
           [("prompt", [CStr "a"])]).
  - reflexivity.
  - right. intros col. discriminate.
Defined.

(** ** Dataset.__init__ and preprocess_data *)

(** X15. The frame given to the constructor is never modified:
    [Dataset(df, ...)] followed by [preprocess_data], in place or not, with
    any options, and whether the call returns or raises, leaves the object
    [df] designates as it was; only the copy held in [self.data] can
    change. *)
Theorem constructor_frame_is_not_modified
    (num2words : string -> reading -> result string)
    (literal_eval : cell -> result pyval) (df : loc)
    (p a du hw : string)
    (lowercase punctuation_free convert_num2words asr_string_recomposition
     inplace : bool) (h : heap) (f0 : frame) :
  h !! df = Some f0 ->
  match (self ← Dataset_init df p a du hw;
         preprocess_data num2words literal_eval self lowercase punctuation_free
           convert_num2words asr_string_recomposition inplace) h with
  | (_, h') => h' !! df = Some f0
  end.
Proof.
  intros Hdf.
  unfold mbind at 1, heapM_bind at 1.
  unfold Dataset_init. unfold mbind at 1, heapM_bind at 1.
  unfold read_frame at 1. rewrite (lookup_total_correct _ _ _ Hdf).
  unfold mbind at 1, heapM_bind at 1. unfold new_frame at 1.
  cbn [mret heapM_ret].
  set (copy := fresh (dom h)).
  assert (Hne : df <> copy).
  { intros E. apply (is_fresh (dom h)). apply elem_of_dom. fold copy.
    rewrite <- E. by rewrite Hdf. }
  set (self := {| data_raw := df; data := copy; prompt_col := p; asr_col := a;
                  duration_col := du; human_wcpm_col := hw |}).
  set (h1 := <[copy := f0]> h).
  assert (Hdf1 : h1 !! df = Some f0).
  { subst h1. rewrite lookup_insert_ne; [done |]. intros E. by apply Hne. }
  assert (Hin : df ∈ dom h1) by (apply elem_of_dom; by rewrite Hdf1).
  pose proof (preprocess_data_outcome num2words literal_eval self lowercase
                punctuation_free convert_num2words asr_string_recomposition
                inplace h1 f0 (lookup_insert_eq h copy f0)) as H.
  unfold post in H.
  destruct (preprocess_data _ _ _ _ _ _ _ _ _) as [[ret | e] h'].
  - destruct H as (f & _ & H). destruct inplace.
    + destruct H as (_ & _ & Hothers). rewrite Hothers; done.
    + destruct H as (l & _ & _ & _ & Hg). by rewrite Hg.
  - destruct H as [_ Hg]. by rewrite Hg.
Qed.

Lemma constructor_frame_is_not_modified_witness :
  match (self ← Dataset_init 1%positive "prompt" "asr_transcript"
                  "scored_duration" "human_wcpm";
         preprocess_data tagged_reading no_literal self true true true false
           true)
          ({[1%positive := one_row "Hello, World" "hello"]} : heap) with
  | (_, h') => h' !! 1%positive = Some (one_row "Hello, World" "hello")
  end.
Proof.
  apply (constructor_frame_is_not_modified tagged_reading no_literal
           1%positive "prompt" "asr_transcript" "scored_duration" "human_wcpm"
           true true true false true
           ({[1%positive := one_row "Hello, World" "hello"]} : heap)
           (one_row "Hello, World" "hello")).
  reflexivity.
Defined.

(** ** The helpers of preprocess_data *)

Lemma string_forall_snoc P s c :
  string_forall P (s +:+ String c "") = string_forall P s && P c.
Proof.
  induction s as [| c' s IH]; simpl; [by rewrite andb_true_r |].
  by rewrite IH, andb_assoc.
Qed.

Lemma string_eqb_snoc s c : String.eqb (s +:+ String c "") "" = false.
Proof. by destruct s. Qed.

Lemma translate_char_no_punctuation c :
  is_punctuation
    (translate_char
       (maketrans punctuation (repeat_char " " (String.length punctuation))) c)
  = false.
Proof. destruct c as [[] [] [] [] [] [] [] []]; reflexivity. Qed.

Lemma translate_no_punctuation s :
  string_forall (fun c => negb (is_punctuation c))
    (translate (maketrans punctuation
                  (repeat_char " " (String.length punctuation))) s) = true.
Proof.
  induction s as [| c s IH]; [done |]. cbn [translate string_forall].
  by rewrite translate_char_no_punctuation, IH.
Qed.

Lemma split_ws_clean P :
  forall s cur,
    string_forall P s = true ->
    string_forall (fun c => negb (is_space c) && P c) cur = true ->
    Forall (fun w => negb (String.eqb w "")
                     && string_forall (fun c => negb (is_space c) && P c) w
                     = true)
      (split_ws s cur).
Proof.
  induction s as [| c s IH]; intros cur Hs Hcur; cbn [split_ws].
  - destruct (String.eqb cur "") eqn:He; [constructor |].
    constructor; [| constructor]. by rewrite He, Hcur.
  - cbn [string_forall] in Hs. apply andb_true_iff in Hs as [Hc Hs].
    destruct (is_space c) eqn:Hsp.
    + destruct (String.eqb cur "") eqn:He.
      * by apply IH.
      * constructor; [by rewrite He, Hcur | by apply IH].
    + apply IH; [done |]. by rewrite string_forall_snoc, Hcur, Hsp, Hc.
Qed.

(** X16. The helper [remove_punctuation] turns a string into words that are
    not empty and hold neither white space nor punctuation, joined by single
    blanks (so without a blank at either end); on the missing value it raises
    [AttributeError]. *)
Theorem remove_punctuation_result (x : cell) :
  match remove_punctuation x
          (maketrans punctuation (repeat_char " " (String.length punctuation))) with
  | Ok y =>
      exists s words,
        x = CStr s /\ y = CStr (join " " words) /\
        Forall (fun w => clean_word w = true) words
  | Raise e => x = CNaN /\ e = AttributeError
  end.
Proof.
  destruct x as [s |]; [| done]. cbn [remove_punctuation].
  eexists s, _. split; [done |]. split; [done |].
  unfold clean_word.
  apply (split_ws_clean (fun c => negb (is_punctuation c))); [| done].
  apply translate_no_punctuation.
Qed.

Lemma string_append_nil_r s : s +:+ "" = s.
Proof.
  induction s as [| c s IH]; [done |].
  change (String c s +:+ "") with (String c (s +:+ "")). by f_equal.
Qed.

Lemma string_append_snoc s c d : (s +:+ String c "") +:+ d = s +:+ String c d.
Proof.
  induction s as [| c' s IH]; [done |].
  change (String c' ((s +:+ String c "") +:+ d) = String c' (s +:+ String c d)).
  by f_equal.
Qed.

(** The digits of a run are gathered before the run is converted. *)
Lemma re_sub_digits_gather f q :
  forall d run,
    string_forall is_digit d = true ->
    re_sub_digits f (d +:+ q) run = re_sub_digits f q (run +:+ d).
Proof.
  induction d as [| c d IH]; intros run Hd.
  - by rewrite string_append_nil_r.
  - cbn [string_forall] in Hd. apply andb_true_iff in Hd as [Hc Hd].
    change (String c d +:+ q) with (String c (d +:+ q)).
    cbn [re_sub_digits]. rewrite Hc, (IH _ Hd).
    by rewrite string_append_snoc.
Qed.

Lemma re_sub_digits_after_run f d q :
  d <> "" ->
  starts_with_digit q = false ->
  re_sub_digits f q d
  = (w ← f d; rest ← re_sub_digits f q ""; Ok (w +:+ rest)).
Proof.
  intros Hd Hq.
  assert (He : String.eqb d "" = false) by by destruct d.
  destruct q as [| c q]; cbn [re_sub_digits String.eqb].
  - rewrite He. destruct (f d) as [w |]; cbn [mbind result_bind bind]; [| done].
    by rewrite string_append_nil_r.
  - simpl in Hq. rewrite Hq, He.
    destruct (f d) as [w |]; cbn [mbind result_bind bind]; [| done].
    by destruct (re_sub_digits f q "").
Qed.

(** What [re.sub] does around the first run of digits. *)
Lemma re_sub_digits_first_run f :
  forall p d q,
    string_forall (fun c => negb (is_digit c)) p = true ->
    d <> "" -> string_forall is_digit d = true ->
    starts_with_digit q = false ->
    re_sub_digits f (p +:+ d +:+ q) ""
    = (w ← f d; rest ← re_sub_digits f q ""; Ok (p +:+ w +:+ rest)).
Proof.
  induction p as [| c p IH]; intros d q Hp Hd Hdig Hq.
  - change ("" +:+ d +:+ q) with (d +:+ q).
    rewrite (re_sub_digits_gather f q d "" Hdig).
    change ("" +:+ d) with d.
    rewrite (re_sub_digits_after_run f d q Hd Hq).
    destruct (f d) as [w |]; cbn [mbind result_bind bind]; [| done].
    by destruct (re_sub_digits f q "").
  - cbn [string_forall] in Hp. apply andb_true_iff in Hp as [Hc Hp].
    apply negb_true_iff in Hc.
    change (String c p +:+ d +:+ q) with (String c (p +:+ d +:+ q)).
    cbn [re_sub_digits]. rewrite Hc.
    cbn [String.eqb mbind result_bind bind].
    rewrite (IH d q Hp Hd Hdig Hq).
    destruct (f d) as [w |]; cbn [mbind result_bind bind]; [| done].
    by destruct (re_sub_digits f q "").
Qed.

Lemma re_sub_digits_no_digit f :
  forall s,
    string_forall (fun c => negb (is_digit c)) s = true ->
    re_sub_digits f s "" = Ok s.
Proof.
  induction s as [| c s IH]; intros Hs; [done |].
  cbn [string_forall] in Hs. apply andb_true_iff in Hs as [Hc Hs].
  apply negb_true_iff in Hc. cbn [re_sub_digits]. rewrite Hc, (IH Hs). done.
Qed.

(** X17. What [converter] does to a cell of text [p + d + q], where [p] has
    no digit, [d] is a run of digits and [q] does not start with a digit: the
    run goes to [num2words] as a whole, read as a year when the whole cell
    has four characters and as a cardinal otherwise, the text before it is
    kept, and the text after it is converted in the same way. A cell without
    a digit is returned as it is, and [num2words] is not consulted. *)
Theorem converter_first_run
    (num2words : string -> reading -> result string) (p d q : string) :
  string_forall (fun c => negb (is_digit c)) p = true ->
  d <> "" ->
  string_forall is_digit d = true ->
  starts_with_digit q = false ->
  let to := if String.length (p +:+ d +:+ q) =? 4 then Year else Cardinal in
  converter num2words (CStr (p +:+ d +:+ q))
  = (w ← num2words d to;
     rest ← re_sub_digits (fun y => num2words y to) q "";
     Ok (CStr (p +:+ w +:+ rest))) /\
  converter num2words (CStr p) = Ok (CStr p).
Proof.
  intros Hp Hd Hdig Hq to. split.
  - unfold converter. subst to.
    destruct (String.length (p +:+ d +:+ q) =? 4);
      rewrite (re_sub_digits_first_run _ p d q Hp Hd Hdig Hq);
      (destruct (num2words d _) as [w |]; cbn [mbind result_bind bind]; [| done]);
      by destruct (re_sub_digits _ q "").
  - unfold converter.
    destruct (String.length p =? 4); by rewrite (re_sub_digits_no_digit _ p Hp).
Qed.

Lemma converter_first_run_witness :
  let to := if String.length ("in " +:+ "1997" +:+ " i had 3 cats") =? 4
            then Year else Cardinal in
  converter tagged_reading (CStr ("in " +:+ "1997" +:+ " i had 3 cats"))
  = (w ← tagged_reading "1997" to;
     rest ← re_sub_digits (fun y => tagged_reading y to) " i had 3 cats" "";
     Ok (CStr ("in " +:+ w +:+ rest))) /\
  converter tagged_reading (CStr "in ") = Ok (CStr "in ").
Proof.
  apply (converter_first_run tagged_reading "in " "1997" " i had 3 cats").
  - reflexivity.
  - discriminate.
  - reflexivity.
  - reflexivity.
Defined.

(** ** compute_features *)

Lemma compare_text_space_exn differ a b e :
  compare_text differ a b (Some " ") = Raise e -> e = IndexError.
Proof.
  intros H. destruct (compare_text_exn _ _ _ _ _ H) as [-> | ->]; [done |].
  exfalso. revert H. unfold compare_text. cbn [split mbind result_bind bind].
  unfold getitem_last.
  destruct (last (differ _ _)) as [w |] eqn:Hl; simpl; [| discriminate].
  destruct w as [| c w]; simpl; [discriminate |].
  destruct (negb (Ascii.eqb c " ")); [| discriminate].
  intros Heq.
  match type of Heq with
  | trim_loop _ _ ?l = _ =>
      pose proof (trim_loop_result c (length l) l (Nat.le_refl _)) as Ht
  end.
  rewrite Heq in Ht. discriminate.
Qed.

Lemma avg_length_of_words_space s :
  exists q, avg_length_of_words s (Some " ") = Ok q.
Proof.
  unfold avg_length_of_words. cbn [split mbind result_bind bind].
  pose proof (split_on_nonempty " " s 0 "") as Hne.
  destruct (split_on " " s 0 "") as [| x r]; [done |]. by eexists.
Qed.

Lemma for_each_raise {A B} (g : A -> result B) l e :
  for_each g l = Raise e -> exists i x, l !! i = Some x /\ g x = Raise e.
Proof.
  induction l as [| x l IH]; simpl; [discriminate |].
  destruct (g x) as [y | e1] eqn:Hy; simpl.
  - destruct (for_each g l) as [l1 | e2]; simpl; [discriminate |].
    intros [= <-]. destruct (IH eq_refl) as (i & x' & Hi & Hx').
    by exists (S i), x'.
  - intros [= <-]. by exists 0, x.
Qed.

Lemma get_column_set_column_same f c col :
  get_column (set_column f c col) c = Ok col.
Proof.
  induction f as [| [c0 col0] f IH]; simpl.
  - by rewrite String.eqb_refl.
  - destruct (String.eqb c0 c) eqn:Hc0; simpl.
    + by rewrite String.eqb_refl.
    + by rewrite Hc0.
Qed.

(** Running a sequence of binds on results that are known. *)
Ltac run_binds :=
  repeat match goal with
         | H : _ = _ |- _ => rewrite H; cbn [mbind result_bind bind]
         end.

(** The five passes of [compute_features] over the rows against one pass
    of [row_features]. *)
Lemma features_row_by_row differ (rows : list (cell * cell)) :
  match (diff_list ← for_each (fun '(x1, x2) =>
                        compare_text differ (str x1) (str x2) (Some " ")) rows;
         temp ← for_each get_errors_dict diff_list;
         word_counts ← for_each cell_word_count (rows.*2);
         prompt_avg ← for_each cell_avg_length (rows.*1);
         asr_avg ← for_each cell_avg_length (rows.*2);
         Ok (make_rows temp word_counts prompt_avg asr_avg)) with
  | Ok feats => for_each (row_features differ) rows = Ok feats
  | Raise e =>
      exists i row, rows !! i = Some row /\ row_features differ row = Raise e
  end.
Proof.
  induction rows as [| [xp xa] rows IH]; [done |].
  assert (Hlater : forall e,
            (exists i row, rows !! i = Some row
                           /\ row_features differ row = Raise e) ->
            exists i row, ((xp, xa) :: rows) !! i = Some row
                          /\ row_features differ row = Raise e).
  { intros e (i & row & Hi & Hrow). by exists (S i), row. }
  assert (Hfirst : forall e,
            row_features differ (xp, xa) = Raise e ->
            exists i row, ((xp, xa) :: rows) !! i = Some row
                          /\ row_features differ row = Raise e).
  { intros e Hrow. by exists 0, (xp, xa). }
  cbn [for_each fmap list_fmap fst snd mbind result_bind bind].
  cbn [for_each fmap list_fmap fst snd mbind result_bind bind] in IH.
  destruct (compare_text differ (str xp) (str xa) (Some " "))
    as [y1 | e] eqn:H1; cbn [mbind result_bind bind];
    [| apply Hfirst; unfold row_features; by run_binds].
  destruct (for_each _ rows) as [l1 | e];
    cbn [for_each mbind result_bind bind] in IH |- *; [| by apply Hlater].
  destruct (get_errors_dict y1) as [[[[[c a] s] r] ed] | e] eqn:H2;
    cbn [mbind result_bind bind];
    [| apply Hfirst; unfold row_features; by run_binds].
  destruct (for_each get_errors_dict l1) as [l2 | e];
    cbn [mbind result_bind bind] in IH |- *; [| by apply Hlater].
  destruct (cell_word_count xa) as [n | e] eqn:H3;
    cbn [mbind result_bind bind];
    [| apply Hfirst; unfold row_features; by run_binds].
  destruct (for_each cell_word_count _) as [l3 | e];
    cbn [mbind result_bind bind] in IH |- *; [| by apply Hlater].
  destruct (cell_avg_length xp) as [pa | e] eqn:H4;
    cbn [mbind result_bind bind];
    [| apply Hfirst; unfold row_features; by run_binds].
  destruct (for_each cell_avg_length rows.*1) as [l4 | e];
    cbn [mbind result_bind bind] in IH |- *; [| by apply Hlater].
  destruct (cell_avg_length xa) as [aa | e] eqn:H5;
    cbn [mbind result_bind bind];
    [| apply Hfirst; unfold row_features; by run_binds].
  destruct (for_each cell_avg_length rows.*2) as [l5 | e];
    cbn [mbind result_bind bind] in IH |- *; [| by apply Hlater].
  assert (Hrow : row_features differ (xp, xa)
                 = Ok (FeaturesRow c a s r n pa aa)).
  { unfold row_features.
    by run_binds. }
  by rewrite Hrow, IH.
Qed.

(** [compute_features] as its five passes over the rows: it reads the two
    columns and writes nothing. *)
Lemma compute_features_passes differ self inplace h d colp cola :
  h !! data self = Some d ->
  get_column d (prompt_col self) = Ok colp ->
  get_column d (asr_col self) = Ok cola ->
  compute_features differ self inplace h
  = ((diff_list ← for_each (fun '(x1, x2) =>
                     compare_text differ (str x1) (str x2) (Some " "))
                   (zip colp cola);
      temp ← for_each get_errors_dict diff_list;
      word_counts ← for_each cell_word_count cola;
      prompt_avg ← for_each cell_avg_length colp;
      asr_avg ← for_each cell_avg_length cola;
      let features := make_rows temp word_counts prompt_avg asr_avg in
      Ok (features, if inplace then None else Some features)), h).
Proof.
  intros Hd Hp Ha.
  cbv [compute_features compute_differ_list read_frame lift mbind heapM_bind].
  rewrite (lookup_total_correct _ _ _ Hd), Hp, Ha.
  cbv [result_bind bind].
  by destruct (for_each _ (zip colp cola)).
Qed.

(** X18. On a frame of one row or more, whose two columns have the same
    number of rows, [compute_features] changes no frame, and its result is
    the one of [row_features] applied to each row on its own: it returns
    exactly when every row has features, the frame of these features in the
    order of the rows (assigned to [self.features], and returned unless
    [inplace]); when it raises, the exception is the one a row raises by
    itself. *)
Theorem compute_features_row_by_row
    (differ : list string -> list string -> list string) (self : Dataset)
    (inplace : bool) (h : heap) (d : frame) (colp cola : column) :
  h !! data self = Some d ->
  has_rows d = true ->
  get_column d (prompt_col self) = Ok colp ->
  get_column d (asr_col self) = Ok cola ->
  length colp = length cola ->
  match compute_features differ self inplace h with
  | (Ok (features, ret), h') =>
      h' = h /\
      for_each (row_features differ) (zip colp cola) = Ok features /\
      length features = length colp /\
      ret = (if inplace then None else Some features)
  | (Raise e, h') =>
      h' = h /\
      exists i xp xa,
        colp !! i = Some xp /\ cola !! i = Some xa /\
        row_features differ (xp, xa) = Raise e
  end.
Proof.
  intros Hd _ Hp Ha Hlen.
  rewrite (compute_features_passes differ self inplace h d colp cola Hd Hp Ha).
  pose proof (features_row_by_row differ (zip colp cola)) as H.
  rewrite fst_zip, snd_zip in H by lia.
  assert (Hraise : forall e,
            (exists i row, zip colp cola !! i = Some row
                           /\ row_features differ row = Raise e) ->
            h = h /\
            exists i xp xa,
              colp !! i = Some xp /\ cola !! i = Some xa /\
              row_features differ (xp, xa) = Raise e).
  { intros e (i & [xp xa] & Hi & Hrow). split; [done |].
    apply lookup_zip_with_Some in Hi as (x & y & [= <- <-] & Hx & Hy).
    by exists i, xp, xa. }
  destruct (for_each _ (zip colp cola)) as [l1 | e];
    cbn [mbind result_bind bind] in H |- *; [| by apply Hraise].
  destruct (for_each get_errors_dict l1) as [l2 | e];
    cbn [mbind result_bind bind] in H |- *; [| by apply Hraise].
  destruct (for_each cell_word_count cola) as [l3 | e];
    cbn [mbind result_bind bind] in H |- *; [| by apply Hraise].
  destruct (for_each cell_avg_length colp) as [l4 | e];
    cbn [mbind result_bind bind] in H |- *; [| by apply Hraise].
  destruct (for_each cell_avg_length cola) as [l5 | e];
    cbn [mbind result_bind bind] in H |- *; [| by apply Hraise].
  split; [done |]. split; [done |]. split; [| done].
  apply for_each_lookup in H as [-> _].
  rewrite length_zip_with. lia.
Qed.

Lemma compute_features_row_by_row_witness :
  let colp := [CStr "the cat sat"] in
  let cola := [CStr "the hat sat"] in
  let h := one_row_heap "the cat sat" "the hat sat" in
  match compute_features lcs_differ one_row_self false h with
  | (Ok (features, ret), h') =>
      h' = h /\
      for_each (row_features lcs_differ) (zip colp cola) = Ok features /\
      length features = length colp /\
      ret = Some features
  | (Raise e, h') =>
      h' = h /\
      exists i xp xa,
        colp !! i = Some xp /\ cola !! i = Some xa /\
        row_features lcs_differ (xp, xa) = Raise e
  end.
Proof.
  apply (compute_features_row_by_row lcs_differ one_row_self false
           (one_row_heap "the cat sat" "the hat sat")
           (one_row "the cat sat" "the hat sat")
           [CStr "the cat sat"] [CStr "the hat sat"]); reflexivity.
Defined.

Lemma for_each_total_on {A B} (g : A -> result B) l :
  Forall (fun x => exists y, g x = Ok y) l -> exists l', for_each g l = Ok l'.
Proof.
  induction 1 as [| x l [y Hy] _ [l' IH]]; simpl; [by eexists |].
  rewrite Hy, IH. by eexists.
Qed.

Lemma cell_word_count_filled x :
  x <> CNaN -> exists n, cell_word_count x = Ok n.
Proof. destruct x; [by eexists | done]. Qed.

Lemma cell_avg_length_filled x :
  x <> CNaN -> exists q, cell_avg_length x = Ok q.
Proof.
  destruct x as [s |]; [| done]. intros _. apply avg_length_of_words_space.
Qed.

(** Once the two columns exist and hold no missing value, only the
    alignment and the classification can make [compute_features] raise. *)
Lemma compute_features_filled_exn differ self inplace h d colp cola :
  h !! data self = Some d ->
  get_column d (prompt_col self) = Ok colp ->
  get_column d (asr_col self) = Ok cola ->
  Forall (fun x => x <> CNaN) colp ->
  Forall (fun x => x <> CNaN) cola ->
  match compute_features differ self inplace h with
  | (Ok _, _) => True
  | (Raise e, _) => e = IndexError
  end.
Proof.
  intros Hd Hp Ha Hfp Hfa.
  rewrite (compute_features_passes differ self inplace h d colp cola Hd Hp Ha).
  destruct (for_each _ (zip colp cola)) as [l1 | e] eqn:H1;
    cbn [mbind result_bind bind].
  2:{ apply for_each_raise in H1 as (i & [x1 x2] & _ & H1).
      by apply compare_text_space_exn in H1. }
  destruct (for_each get_errors_dict l1) as [l2 | e] eqn:H2;
    cbn [mbind result_bind bind].
  2:{ apply for_each_raise in H2 as (i & x & _ & H2).
      by apply get_errors_dict_exn in H2. }
  destruct (for_each_total_on cell_word_count cola) as [l3 ->].
  { eapply Forall_impl; [exact Hfa |]. apply cell_word_count_filled. }
  destruct (for_each_total_on cell_avg_length colp) as [l4 ->].
  { eapply Forall_impl; [exact Hfp |]. apply cell_avg_length_filled. }
  destruct (for_each_total_on cell_avg_length cola) as [l5 ->].
  { eapply Forall_impl; [exact Hfa |]. apply cell_avg_length_filled. }
  done.
Qed.

(** X19. On a frame of one row or more, after a [preprocess_data] in place
    that returned, whatever its options, [compute_features] can raise
    nothing but the [IndexError] of the alignment and of the
    classification: the two columns exist and hold no missing value, and no
    separator is empty. *)
Theorem compute_features_after_preprocess_data
    (num2words : string -> reading -> result string)
    (literal_eval : cell -> result pyval)
    (differ : list string -> list string -> list string) (self : Dataset)
    (lowercase punctuation_free convert_num2words asr_string_recomposition
     inplace : bool) (h : heap) (d : frame) :
  h !! data self = Some d ->
  has_rows d = true ->
  match preprocess_data num2words literal_eval self lowercase punctuation_free
          convert_num2words asr_string_recomposition true h with
  | (Ok _, h1) =>
      match compute_features differ self inplace h1 with
      | (Ok _, _) => True
      | (Raise e, _) => e = IndexError
      end
  | (Raise _, _) => True
  end.
Proof.
  intros Hd _.
  pose proof (preprocess_data_columns num2words literal_eval self lowercase
                punctuation_free convert_num2words asr_string_recomposition
                true h d Hd) as H.
  cbv zeta in H.
  destruct (preprocess_data _ _ _ _ _ _ _ _ _) as [[ret | e] h1]; [| done].
  destruct H as (colp & cola & colp' & cola' & Hp & Ha & Hp' & Ha' & _ & Hd1).
  assert (Hfp : Forall (fun x => x <> CNaN) colp').
  { eapply for_each_Forall; [| exact Hp']. apply normalise_cell_filled. }
  assert (Hfa : Forall (fun x => x <> CNaN) cola').
  { eapply for_each_Forall; [| exact Ha']. apply normalise_cell_filled. }
  cbn [setitem_columns] in Hd1.
  destruct (String.eqb (prompt_col self) (asr_col self)) eqn:Heq.
  - apply String.eqb_eq in Heq.
    apply (compute_features_filled_exn differ self inplace h1 _ cola' cola'
             Hd1); [| | done | done].
    + rewrite Heq. apply get_column_set_column_same.
    + apply get_column_set_column_same.
  - apply String.eqb_neq in Heq.
    apply (compute_features_filled_exn differ self inplace h1 _ colp' cola'
             Hd1); [| | done | done].
    + rewrite get_column_set_column by done. apply get_column_set_column_same.
    + apply get_column_set_column_same.
Qed.

Lemma compute_features_after_preprocess_data_witness :
  match preprocess_data tagged_reading no_literal one_row_self
          true true true false true (one_row_heap "The cat" "the 2 cats") with
  | (Ok _, h1) =>
      match compute_features (fun _ b => map insert_line b) one_row_self
              false h1 with
      | (Ok _, _) => True
      | (Raise e, _) => e = IndexError
      end
  | (Raise _, _) => True
  end.
Proof.
  apply (compute_features_after_preprocess_data tagged_reading no_literal
           (fun _ b => map insert_line b) one_row_self true true true false
           false
           (one_row_heap "The cat" "the 2 cats")
           (one_row "The cat" "the 2 cats")); reflexivity.
Defined.

Lemma for_each_filled {A B} (g : A -> result B) (P : A -> Prop) l l' :
  (forall x y, g x = Ok y -> P x) -> for_each g l = Ok l' -> Forall P l.
Proof.
  intros HP. revert l'. induction l as [| x l IH]; intros l'; simpl;
    [constructor |].
  destruct (g x) as [y |] eqn:Hy; simpl; [| discriminate].
  destruct (for_each g l) as [l1 |]; simpl; [| discriminate].
  intros _. constructor; [by eapply HP | by eapply IH].
Qed.

Lemma cell_word_count_exn x e : cell_word_count x = Raise e -> e = AttributeError.
Proof. destruct x; simpl; [discriminate | by intros [= <-]]. Qed.

Lemma cell_avg_length_exn x e : cell_avg_length x = Raise e -> e = AttributeError.
Proof.
  destruct x as [s |]; [| by intros [= <-]].
  unfold cell_avg_length, cell_text. cbn [mbind result_bind bind].
  destruct (avg_length_of_words_space s) as [q ->]. discriminate.
Qed.

(** X20. On a frame of one row or more whose prompt column or transcript
    column holds a missing value, [compute_features] never returns: it
    raises the [AttributeError] of a string method called on the missing
    value, unless the alignment or the classification of a row has raised
    its [IndexError] before; no frame is changed. *)
Theorem compute_features_missing_value_raises
    (differ : list string -> list string -> list string) (self : Dataset)
    (inplace : bool) (h : heap) (d : frame) (colp cola : column) :
  h !! data self = Some d ->
  has_rows d = true ->
  get_column d (prompt_col self) = Ok colp ->
  get_column d (asr_col self) = Ok cola ->
  CNaN ∈ colp \/ CNaN ∈ cola ->
  exists e,
    compute_features differ self inplace h = (Raise e, h) /\
    (e = AttributeError \/ e = IndexError).
Proof.
  intros Hd _ Hp Ha Hnan.
  rewrite (compute_features_passes differ self inplace h d colp cola Hd Hp Ha).
  destruct (for_each _ (zip colp cola)) as [l1 | e] eqn:H1;
    cbn [mbind result_bind bind].
  2:{ exists e. split; [done |]. right.
      apply for_each_raise in H1 as (i & [x1 x2] & _ & H1).
      by apply compare_text_space_exn in H1. }
  destruct (for_each get_errors_dict l1) as [l2 | e] eqn:H2;
    cbn [mbind result_bind bind].
  2:{ exists e. split; [done |]. right.
      apply for_each_raise in H2 as (i & x & _ & H2).
      by apply get_errors_dict_exn in H2. }
  destruct (for_each cell_word_count cola) as [l3 | e] eqn:H3;
    cbn [mbind result_bind bind].
  2:{ exists e. split; [done |]. left.
      apply for_each_raise in H3 as (i & x & _ & H3).
      by apply cell_word_count_exn in H3. }
  destruct (for_each cell_avg_length colp) as [l4 | e] eqn:H4;
    cbn [mbind result_bind bind].
  2:{ exists e. split; [done |]. left.
      apply for_each_raise in H4 as (i & x & _ & H4).
      by apply cell_avg_length_exn in H4. }
  exfalso.
  apply (for_each_filled _ (fun x => x <> CNaN)) in H3;
    [| by intros [] ?].
  apply (for_each_filled _ (fun x => x <> CNaN)) in H4;
    [| by intros [] ?].
  destruct Hnan as [Hin | Hin].
  - by apply (proj1 (Forall_forall _ _) H4 _ Hin).
  - by apply (proj1 (Forall_forall _ _) H3 _ Hin).
Qed.

Lemma compute_features_missing_value_raises_witness :
  let d := [("prompt", [CStr "the cat"]); ("asr_transcript", [CNaN])] in
  let h : heap := {[2%positive := d]} in
  exists e,
    compute_features lcs_differ one_row_self false h = (Raise e, h) /\
    (e = AttributeError \/ e = IndexError).
Proof.
  apply (compute_features_missing_value_raises lcs_differ one_row_self false
           {[2%positive := [("prompt", [CStr "the cat"]);
                            ("asr_transcript", [CNaN])]]}
           [("prompt", [CStr "the cat"]); ("asr_transcript", [CNaN])]
           [CStr "the cat"] [CNaN]); try reflexivity.
  right. apply list_elem_of_here.
Defined.

(** X21. On a frame of one row or more that lacks the prompt column or the
    transcript column, [compute_features] raises [KeyError] and changes no
    frame. *)
Theorem compute_features_missing_column
    (differ : list string -> list string -> list string) (self : Dataset)
    (inplace : bool) (h : heap) (d : frame) :
  h !! data self = Some d ->
  has_rows d = true ->
  (forall col, get_column d (prompt_col self) <> Ok col) \/
  (forall col, get_column d (asr_col self) <> Ok col) ->
  compute_features differ self inplace h = (Raise KeyError, h).
Proof.
  intros Hd _ Hmiss.
  cbv [compute_features compute_differ_list read_frame lift mbind heapM_bind].
  rewrite (lookup_total_correct _ _ _ Hd).
  destruct (get_column d (prompt_col self)) as [colp | e] eqn:Hp.
  - destruct Hmiss as [Hmiss | Hmiss]; [by destruct (Hmiss colp) |].
    destruct (get_column d (asr_col self)) as [cola | e] eqn:Ha;
      [by destruct (Hmiss cola) |].
    apply get_column_exn in Ha as ->. reflexivity.
  - apply get_column_exn in Hp as ->. reflexivity.
Qed.

Lemma compute_features_missing_column_witness :
  let d := [("prompt", [CStr "the cat"])] in
  let h : heap := {[2%positive := d]} in
  compute_features lcs_differ one_row_self false h = (Raise KeyError, h).
Proof.
  apply (compute_features_missing_column lcs_differ one_row_self false
           {[2%positive := [("prompt", [CStr "the cat"])]]}
           [("prompt", [CStr "the cat"])]); try reflexivity.
  right. intros col. discriminate.
Defined.

(** ** open_file, save_file *)

Lemma prefix_empty s : String.prefix "" s = true.
Proof. by destruct s. Qed.

Lemma split_on_dot_cons c s cur :
  split_on "." (String c s) 0 cur
  = if Ascii.eqb c "." then cur :: split_on "." s 0 ""
    else split_on "." s 0 (cur +:+ String c "").
Proof.
  cbn [split_on]. rewrite prefix_cons, prefix_empty.
  destruct (ascii_dec "." c) as [<- | Hne]; [done |].
  destruct (Ascii.eqb c ".") eqn:Hc; [| done].
  apply Ascii.eqb_eq in Hc. congruence.
Qed.


Lemma count_char_app c s1 s2 :
  count_char c (s1 +:+ s2) = count_char c s1 + count_char c s2.
Proof.
  induction s1 as [| a s1 IH]; [done |].
  change (count_char c (String a (s1 +:+ s2))
          = count_char c (String a s1) + count_char c s2).
  cbn [count_char]. rewrite IH. lia.
Qed.

Lemma split_on_dot_pieces s cur :
  count_char "." cur = 0 ->
  Forall (fun x => count_char "." x = 0) (split_on "." s 0 cur).
Proof.
  revert cur. induction s as [| c s IH]; intros cur Hcur.
  - by constructor.
  - rewrite split_on_dot_cons. destruct (Ascii.eqb c ".") eqn:Hc.
    + constructor; [done |]. by apply IH.
    + apply IH. rewrite count_char_app. simpl. rewrite Hc. lia.
Qed.

Lemma string_app_assoc (s1 s2 s3 : string) :
  (s1 +:+ s2) +:+ s3 = s1 +:+ (s2 +:+ s3).
Proof.
  induction s1 as [| a s1 IH]; [done |].
  change (String a ((s1 +:+ s2) +:+ s3) = String a (s1 +:+ (s2 +:+ s3))).
  by f_equal.
Qed.

Lemma split_on_dot_free s cur :
  count_char "." s = 0 -> split_on "." s 0 cur = [cur +:+ s].
Proof.
  revert cur. induction s as [| c s IH]; intros cur; simpl count_char.
  - intros _. simpl. by rewrite string_append_nil_r.
  - rewrite split_on_dot_cons. destruct (Ascii.eqb c "."); [lia |].
    intros Hs. rewrite IH by lia. by rewrite string_append_snoc.
Qed.

Lemma split_on_dot_app stem rest cur :
  count_char "." stem = 0 ->
  split_on "." (stem +:+ "." +:+ rest) 0 cur
  = (cur +:+ stem) :: split_on "." rest 0 "".
Proof.
  revert cur. induction stem as [| c stem IH]; intros cur; simpl count_char.
  - intros _. change ("" +:+ "." +:+ rest) with (String "." rest).
    rewrite split_on_dot_cons. simpl. by rewrite string_append_nil_r.
  - change (String c stem +:+ "." +:+ rest)
      with (String c (stem +:+ "." +:+ rest)).
    rewrite split_on_dot_cons. destruct (Ascii.eqb c "."); [lia |].
    intros Hs. rewrite IH by lia. by rewrite string_append_snoc.
Qed.

Lemma split_file_name stem ext :
  count_char "." stem = 0 -> count_char "." ext = 0 ->
  split_on "." (stem +:+ "." +:+ ext) 0 "" = [stem; ext].
Proof.
  intros Hs He. rewrite split_on_dot_app by done.
  by rewrite split_on_dot_free.
Qed.

Lemma rsplit1_none c s : count_char c s = 0 -> rsplit1 c s = None.
Proof.
  induction s as [| a s IH]; simpl; [done |].
  destruct (Ascii.eqb a c); [lia |]. intros Hs. by rewrite IH.
Qed.

Lemma rsplit1_last before ext :
  count_char "." ext = 0 ->
  rsplit1 "." (before +:+ "." +:+ ext) = Some (before, ext).
Proof.
  intros He. induction before as [| a before IH].
  - change ("" +:+ "." +:+ ext) with (String "." ext). cbn [rsplit1].
    by rewrite rsplit1_none.
  - change (String a before +:+ "." +:+ ext)
      with (String a (before +:+ "." +:+ ext)).
    cbn [rsplit1]. by rewrite IH.
Qed.

Lemma rsplit1_some c s before after :
  rsplit1 c s = Some (before, after) ->
  s = before +:+ String c after /\ count_char c after = 0.
Proof.
  revert before. induction s as [| a s IH]; intros before; simpl; [done |].
  destruct (rsplit1 c s) as [[b1 a1] |] eqn:Hr.
  - intros [= <- <-]. destruct (IH b1 eq_refl) as [-> Hc]. by split.
  - destruct (Ascii.eqb a c) eqn:Hac; [| done].
    apply Ascii.eqb_eq in Hac as ->. intros [= <- <-]. split; [done |].
    clear IH. induction s as [| a s IH]; [done |]. simpl in Hr |- *.
    destruct (rsplit1 c s) as [[b1 a1] |]; [done |].
    destruct (Ascii.eqb a c); [done |]. by apply IH.
Qed.

Lemma rsplit1_is_none c s : rsplit1 c s = None -> count_char c s = 0.
Proof.
  induction s as [| a s IH]; simpl; [done |].
  destruct (rsplit1 c s) as [[b1 a1] |]; [done |].
  destruct (Ascii.eqb a c); [done |]. intros _. by apply IH.
Qed.

Lemma first_free_least path_exists name n :
  path_exists (name n) = false ->
  forall fuel i,
    i <= n -> n - i < fuel ->
    exists k,
      first_free path_exists name fuel i = Ok k /\ i <= k <= n /\
      path_exists (name k) = false /\
      forall j, i <= j < k -> path_exists (name j) = true.
Proof.
  intros Hn. induction fuel as [| fuel IH]; intros i Hi Hfuel; [lia |].
  cbn [first_free]. destruct (path_exists (name i)) eqn:Hex.
  - assert (i <> n) by congruence.
    destruct (IH (S i)) as (k & Hk & Hle & Hfree & Hbefore); [lia | lia |].
    exists k. split; [done |]. split; [lia |]. split; [done |].
    intros j Hj. destruct (decide (j = i)) as [-> | Hne]; [done |].
    apply Hbefore. lia.
  - exists i. split; [done |]. split; [lia |]. split; [done |].
    intros j Hj. lia.
Qed.



Lemma last_char_empty path e : last_char path = Raise e -> path = "" /\ e = IndexError.
Proof.
  induction path as [| c path IH]; simpl; [by intros [= <-] |].
  destruct path as [| c' path]; [discriminate |]. intros H.
  by destruct (IH H).
Qed.

(** [save_file] once the directory and the two parts of the file name are
    known. *)
Lemma save_file_steps path_exists fuel path file_name replace :
  save_file path_exists fuel path file_name replace
  = match last_char path with
    | Raise e => PyRaise e
    | Ok _ =>
        if negb (path_exists (directory path)) then FileNotFound
        else
          match split_on "." file_name 0 "" with
          | [stem; extension] =>
              if replace then
                Done [OsRemove stem;
                      write_call (directory path +:+ stem +:+ "." +:+ extension)
                        extension]
              else
                match first_free path_exists
                        (fun i => directory path +:+ (stem +:+ "_" +:+ format_d i)
                                  +:+ "." +:+ extension)
                        fuel 0 with
                | Ok i =>
                    Done [write_call
                            (directory path +:+ (stem +:+ "_" +:+ format_d i)
                             +:+ "." +:+ extension) extension]
                | Raise e => PyRaise e
                end
          | _ => PyRaise ValueError
          end
    end.
Proof.
  unfold save_file, directory, write_call.
  destruct (last_char path) as [c | e]; [| done].
  by destruct (Ascii.eqb c "/").
Qed.

(** X22. Without [replace], in an existing directory, for a file name
    [stem.ext] and as soon as one of the names [stem_0.ext], [stem_1.ext],
    ... is free, [save_file] ends, removes nothing and makes one call: it
    writes [stem_i.ext] in the directory, for the least [i] whose name is
    free. No existing file is written over. *)
Theorem save_file_first_free_name
    (path_exists : string -> bool) (fuel : nat) (path stem ext : string)
    (n : nat) :
  let name i :=
    directory path +:+ (stem +:+ "_" +:+ format_d i) +:+ "." +:+ ext in
  path <> "" ->
  path_exists (directory path) = true ->
  count_char "." stem = 0 -> count_char "." ext = 0 ->
  path_exists (name n) = false ->
  n < fuel ->
  exists i,
    save_file path_exists fuel path (stem +:+ "." +:+ ext) false
    = Done [write_call (name i) ext] /\
    i <= n /\
    path_exists (name i) = false /\
    forall j, j < i -> path_exists (name j) = true.
Proof.
  intros name Hpath Hdir Hstem Hext Hn Hfuel.
  destruct (first_free_least path_exists name n Hn fuel 0)
    as (i & Hi & Hle & Hfree & Hbefore); [lia | lia |].
  exists i. split; [| split; [lia |]; split; [done |]].
  - rewrite save_file_steps.
    destruct (last_char path) as [c | e] eqn:Hc;
      [| by destruct (last_char_empty _ _ Hc)].
    rewrite Hdir, split_file_name by done. cbn [negb].
    fold name. by rewrite Hi.
  - intros j Hj. apply Hbefore. lia.
Qed.

Lemma save_file_first_free_name_witness :
  let taken (p : string) :=
    String.eqb p "./data/" || String.eqb p "./data/model_0.pkl" in
  exists i,
    save_file taken 5 "./data" ("model" +:+ "." +:+ "pkl") false
    = Done [write_call
              (directory "./data" +:+ ("model" +:+ "_" +:+ format_d i)
               +:+ "." +:+ "pkl") "pkl"] /\
    i <= 1 /\
    taken (directory "./data" +:+ ("model" +:+ "_" +:+ format_d i)
           +:+ "." +:+ "pkl") = false /\
    forall j, j < i ->
      taken (directory "./data" +:+ ("model" +:+ "_" +:+ format_d j)
             +:+ "." +:+ "pkl") = true.
Proof.
  apply (save_file_first_free_name
           (fun p => String.eqb p "./data/"
                     || String.eqb p "./data/model_0.pkl")
           5 "./data" "model" "pkl" 1);
    [discriminate | reflexivity | reflexivity | reflexivity | reflexivity | lia].
Defined.




(** X25. The file [save_file] writes is read back by [open_file] with the
    matching reader: whenever [save_file] returns, its last call writes a
    file, and once that file exists [open_file] on its name, with the
    default separator, calls [read_csv] with the separator of [to_csv] if
    the file was written by [to_csv], and [joblib.load] if it was written
    by [joblib.dump]. *)
Theorem open_file_reads_what_save_file_wrote
    (path_exists : string -> bool) (fuel : nat) (path file_name : string)
    (replace : bool) (calls : list file_call) :
  save_file path_exists fuel path file_name replace = Done calls ->
  exists target,
    (last calls = Some (ToCsv target ";") /\
     forall path_exists', path_exists' target = true ->
       open_file path_exists' target ";" = Done (ReadCsv target ";")) \/
    (last calls = Some (JoblibDump target) /\
     forall path_exists', path_exists' target = true ->
       open_file path_exists' target ";" = Done (JoblibLoad target)).
Proof.
  rewrite save_file_steps.
  destruct (last_char path) as [c | e]; [| discriminate].
  destruct (negb (path_exists (directory path))); [discriminate |].
  pose proof (split_on_dot_pieces file_name "" eq_refl) as Hpieces.
  destruct (split_on "." file_name 0 "") as [| stem [| ext [| x l]]];
    try discriminate.
  apply Forall_cons in Hpieces as [_ Hext]. apply Forall_inv in Hext.
  assert (Hopen : forall before path_exists',
            path_exists' (before +:+ "." +:+ ext) = true ->
            open_file path_exists' (before +:+ "." +:+ ext) ";"
            = if String.eqb ext "csv"
              then Done (ReadCsv (before +:+ "." +:+ ext) ";")
              else Done (JoblibLoad (before +:+ "." +:+ ext))).
  { intros before path_exists' Hex. unfold open_file.
    by rewrite rsplit1_last, Hex. }
  assert (Hwrite : forall before,
            exists target,
              (last [write_call (before +:+ "." +:+ ext) ext]
               = Some (ToCsv target ";") /\
               forall path_exists', path_exists' target = true ->
                 open_file path_exists' target ";" = Done (ReadCsv target ";")) \/
              (last [write_call (before +:+ "." +:+ ext) ext]
               = Some (JoblibDump target) /\
               forall path_exists', path_exists' target = true ->
                 open_file path_exists' target ";" = Done (JoblibLoad target))).
  { intros before. exists (before +:+ "." +:+ ext). unfold write_call.
    pose proof (Hopen before) as Hb.
    destruct (String.eqb ext "csv"); [left | right]; by split. }
  destruct replace.
  - intros [= <-].
    rewrite <- (string_app_assoc (directory path) stem ("." +:+ ext)).
    change (last [OsRemove stem;
                  write_call ((directory path +:+ stem) +:+ "." +:+ ext) ext])
      with (last [write_call ((directory path +:+ stem) +:+ "." +:+ ext) ext]).
    apply Hwrite.
  - destruct (first_free _ _ fuel 0) as [i | e]; [| discriminate].
    intros [= <-].
    rewrite <- (string_app_assoc (directory path) _ ("." +:+ ext)).
    apply Hwrite.
Qed.

Lemma open_file_reads_what_save_file_wrote_witness :
  exists target,
    (last [OsRemove "wcpm"; ToCsv "./data/wcpm.csv" ";"]
     = Some (ToCsv target ";") /\
     forall path_exists', path_exists' target = true ->
       open_file path_exists' target ";" = Done (ReadCsv target ";")) \/
    (last [OsRemove "wcpm"; ToCsv "./data/wcpm.csv" ";"]
     = Some (JoblibDump target) /\
     forall path_exists', path_exists' target = true ->
       open_file path_exists' target ";" = Done (JoblibLoad target)).
Proof.
  apply (open_file_reads_what_save_file_wrote
           (fun p => String.eqb p "./data/") 0 "./data/" "wcpm.csv" true).
  reflexivity.
Defined.

(** X26. [open_file] looks at the name before it looks for the file: a path
    without a dot raises [ValueError] whether the file exists or not; a path
    with a dot raises [FileNotFoundError] if nothing exists under it;
    otherwise the text after the last dot decides, [csv] for [read_csv] with
    the separator given and anything else for [joblib.load]. *)
Theorem open_file_outcome
    (path_exists : string -> bool) (file_path sep : string) :
  match open_file path_exists file_path sep with
  | PyRaise e => e = ValueError /\ count_char "." file_path = 0
  | FileNotFound =>
      count_char "." file_path <> 0 /\ path_exists file_path = false
  | Done call =>
      path_exists file_path = true /\
      exists before ext,
        file_path = before +:+ "." +:+ ext /\ count_char "." ext = 0 /\
        call = (if String.eqb ext "csv" then ReadCsv file_path sep
                else JoblibLoad file_path)
  end.
Proof.
  unfold open_file.
  destruct (rsplit1 "." file_path) as [[before ext] |] eqn:Hr.
  - apply rsplit1_some in Hr as [Hpath Hext].
    assert (Hdot : count_char "." file_path <> 0).
    { rewrite Hpath, count_char_app. simpl. lia. }
    destruct (path_exists file_path); cbn [negb]; [| done].
    destruct (String.eqb ext "csv") eqn:Hcsv.
    + split; [done |]. exists before, ext. by rewrite Hcsv.
    + split; [done |]. exists before, ext. by rewrite Hcsv.
  - split; [done |]. by apply rsplit1_is_none.
Qed.
